(** * activitywatch-exporter: a shallow embedding of [main.go]

    The exporter reads events from an ActivityWatch server, renders one
    InfluxDB line-protocol record per event and uploads the batch.  This
    development embeds the parts of [main.go] that carry logic:

    - [shouldRetry] and [retryableTransport.RoundTrip] (lines 90-131),
    - [handleApiError] and [escapeTagValue] (lines 133-149),
    - the per-event rendering switch of [main] (lines 247-355),
    - the delivery tail of [main] (lines 363-394),

    together with the pieces of the Go runtime and standard library they
    rest on: strings as byte sequences, the UTF-8 decoding behind
    [[]rune(s)] and [string(runes)], [strings.ReplaceAll] and the [fmt]
    verbs that occur in the format strings. *)

From Stdlib Require Import ZArith List String Ascii Bool Lia DecimalString.
From Stdlib Require Import Permutation.
From Equations Require Import Equations.
Import ListNotations.

Local Open Scope string_scope.
Local Open Scope Z_scope.

(** ** Go strings

    A Go [string] is an immutable sequence of bytes; Rocq's [string] is a
    list of 8-bit [ascii] characters, so the two coincide.  Literals in this
    file are read byte for byte (Rocq applies no backslash escapes). *)

(** The numeric value of a byte, [0 <= byteZ c < 256]. *)
Definition byteZ (c : ascii) : Z := Z.of_N (N_of_ascii c).

(** The byte with a given value in [0, 256). *)
Definition chr (z : Z) : ascii := ascii_of_N (Z.to_N z).

(** Go's conversion [byte(x)] of an integer: the low eight bits. *)
Definition byte (z : Z) : Z := z mod 256.

(** [s[n:]] for [n <= len(s)]. *)
Fixpoint drop (n : nat) (s : string) : string :=
  match n, s with
  | O, _ => s
  | S _, EmptyString => EmptyString
  | S k, String _ t => drop k t
  end.

(** A string of [n] copies of one byte (used to build long inputs). *)
Fixpoint repeatByte (n : nat) (c : ascii) : string :=
  match n with
  | O => EmptyString
  | S k => String c (repeatByte k c)
  end.

(** ** Package [unicode/utf8] and the rune conversions of the runtime *)

Module utf8.

Definition RuneError : Z := 0xFFFD.
Definition MaxRune : Z := 0x10FFFF.

Definition surrogateMin : Z := 0xD800.
Definition surrogateMax : Z := 0xDFFF.

Definition tx : Z := 0x80.
Definition t2 : Z := 0xC0.
Definition t3 : Z := 0xE0.
Definition t4 : Z := 0xF0.

Definition maskx : Z := 0x3F.
Definition mask2 : Z := 0x1F.
Definition mask3 : Z := 0x0F.
Definition mask4 : Z := 0x07.

Definition rune1Max : Z := 0x7F.
Definition rune2Max : Z := 0x7FF.
Definition rune3Max : Z := 0xFFFF.

Definition locb : Z := 0x80.
Definition hicb : Z := 0xBF.

(** What the table [first] of the package records about a leading byte:
    ASCII, invalid, or the length of the sequence it opens together with
    the range accepted for the second byte ([acceptRanges]). *)
Inductive firstInfo : Type :=
| ASCII
| Invalid
| Lead (sz : nat) (lo hi : Z).

Definition first (b : Z) : firstInfo :=
  if b <? 0x80 then ASCII                      (* 0x00-0x7F: as *)
  else if b <? 0xC2 then Invalid               (* 0x80-0xC1: xx *)
  else if b <? 0xE0 then Lead 2 locb hicb      (* 0xC2-0xDF: s1 *)
  else if b =? 0xE0 then Lead 3 0xA0 hicb      (* 0xE0:      s2 *)
  else if b <? 0xED then Lead 3 locb hicb      (* 0xE1-0xEC: s3 *)
  else if b =? 0xED then Lead 3 locb 0x9F      (* 0xED:      s4 *)
  else if b <? 0xF0 then Lead 3 locb hicb      (* 0xEE-0xEF: s3 *)
  else if b =? 0xF0 then Lead 4 0x90 hicb      (* 0xF0:      s5 *)
  else if b <? 0xF4 then Lead 4 locb hicb      (* 0xF1-0xF3: s6 *)
  else if b =? 0xF4 then Lead 4 locb 0x8F      (* 0xF4:      s7 *)
  else Invalid.                                (* 0xF5-0xFF: xx *)

(** [utf8.DecodeRuneInString]: the first rune of [s] and its width in
    bytes; [(RuneError, 0)] on the empty string and [(RuneError, 1)] on an
    encoding that is invalid, overlong, a surrogate or out of range. *)
Definition DecodeRuneInString (s : string) : Z * nat :=
  match s with
  | EmptyString => (RuneError, 0%nat)
  | String c0 r0 =>
    let s0 := byteZ c0 in
    match first s0 with
    | ASCII => (s0, 1%nat)
    | Invalid => (RuneError, 1%nat)
    | Lead sz lo hi =>
      if (String.length s <? sz)%nat then (RuneError, 1%nat) else
      match r0 with
      | EmptyString => (RuneError, 1%nat)
      | String c1 r1 =>
        let s1 := byteZ c1 in
        if (s1 <? lo) || (hi <? s1) then (RuneError, 1%nat) else
        if (sz <=? 2)%nat then
          (Z.lor (Z.shiftl (Z.land s0 mask2) 6) (Z.land s1 maskx), 2%nat)
        else
        match r1 with
        | EmptyString => (RuneError, 1%nat)
        | String c2 r2 =>
          let s2 := byteZ c2 in
          if (s2 <? locb) || (hicb <? s2) then (RuneError, 1%nat) else
          if (sz <=? 3)%nat then
            (Z.lor (Z.lor (Z.shiftl (Z.land s0 mask3) 12)
                          (Z.shiftl (Z.land s1 maskx) 6))
                   (Z.land s2 maskx), 3%nat)
          else
          match r2 with
          | EmptyString => (RuneError, 1%nat)
          | String c3 r3 =>
            let s3 := byteZ c3 in
            if (s3 <? locb) || (hicb <? s3) then (RuneError, 1%nat) else
            (Z.lor (Z.lor (Z.lor (Z.shiftl (Z.land s0 mask4) 18)
                                 (Z.shiftl (Z.land s1 maskx) 12))
                          (Z.shiftl (Z.land s2 maskx) 6))
                   (Z.land s3 maskx), 4%nat)
          end
        end
      end
    end
  end.

(** The three- and four-byte encodings of [encoderune]. *)
Definition enc2 (r : Z) : string :=
  String (chr (Z.lor t2 (byte (Z.shiftr r 6))))
 (String (chr (Z.lor tx (Z.land (byte r) maskx))) EmptyString).

Definition enc3 (r : Z) : string :=
  String (chr (Z.lor t3 (byte (Z.shiftr r 12))))
 (String (chr (Z.lor tx (Z.land (byte (Z.shiftr r 6)) maskx)))
 (String (chr (Z.lor tx (Z.land (byte r) maskx))) EmptyString)).

Definition enc4 (r : Z) : string :=
  String (chr (Z.lor t4 (byte (Z.shiftr r 18))))
 (String (chr (Z.lor tx (Z.land (byte (Z.shiftr r 12)) maskx)))
 (String (chr (Z.lor tx (Z.land (byte (Z.shiftr r 6)) maskx)))
 (String (chr (Z.lor tx (Z.land (byte r) maskx))) EmptyString))).

(** The runtime's [encoderune] (the same cases as [utf8.AppendRune]): the
    switch is on [uint32(r)], so a negative rune is out of range, and an
    out-of-range rune or a surrogate is written as [RuneError]. *)
Definition encoderune (r : Z) : string :=
  let i := r mod 2 ^ 32 in
  if i <=? rune1Max then String (chr (byte r)) EmptyString
  else if i <=? rune2Max then enc2 r
  else if (MaxRune <? i) || ((surrogateMin <=? i) && (i <=? surrogateMax))
       then enc3 RuneError
  else if i <=? rune3Max then enc3 r
  else enc4 r.

(** A Unicode scalar value: what decoding produces and what encoding
    writes back unchanged. *)
Definition validRune (r : Z) : Prop :=
  0 <= r < surrogateMin \/ surrogateMax < r <= MaxRune.

End utf8.

(** The conversion [[]rune(s)]: decode rune after rune, an invalid byte
    giving [RuneError] and being skipped alone (as [for range s] does). *)
Equations? runes (s : string) : list Z by wf (String.length s) lt :=
  runes EmptyString := [];
  runes (String c t) :=
    fst (utf8.DecodeRuneInString (String c t))
      :: runes (drop (snd (utf8.DecodeRuneInString (String c t))) (String c t)).
Proof.
  assert (Hdrop : forall n u, (String.length (drop n u) <= String.length u)%nat).
  { induction n as [|n IH]; intros [|a u]; simpl; auto. }
  unfold utf8.DecodeRuneInString.
  repeat match goal with
         | |- context [match ?x with _ => _ end] => destruct x
         end;
    cbn [fst snd drop String.length];
    match goal with
    | |- (String.length (drop ?n ?u) < _)%nat =>
      pose proof (Hdrop n u); lia
    | _ => lia
    end.
Qed.

(** The conversion [string(runes)]: the concatenated encodings. *)
Fixpoint string_of_runes (rs : list Z) : string :=
  match rs with
  | [] => EmptyString
  | r :: rs' => utf8.encoderune r ++ string_of_runes rs'
  end.

(** ** Package [strings] *)

Module strings.

(** [strings.ReplaceAll(s, old, new)] for a pattern [old] of one byte, the
    only kind [main.go] passes: every occurrence of the byte is replaced,
    left to right, and the replacement text is not scanned again. *)
Fixpoint ReplaceAll (s : string) (old : ascii) (new : string) : string :=
  match s with
  | EmptyString => EmptyString
  | String c t =>
    if Ascii.eqb c old then new ++ ReplaceAll t old new
    else String c (ReplaceAll t old new)
  end.

End strings.

(** ** [main.go]: constants *)

Definition bucketsApiPath : string := "/api/0/buckets".
Definition webTabCurrentType : string := "web.tab.current".
Definition appEditorType : string := "app.editor.activity".
Definition currentWindowType : string := "currentwindow".
Definition stopwatchType : string := "general.stopwatch".
Definition afkType : string := "afkstatus".
Definition retryCount : nat := 3.
Definition stringLimit : nat := 1024.

(** ** [escapeTagValue] (lines 140-149) *)

(** The three replacements of lines 141-143, before the length check. *)
Definition escaped (value : string) : string :=
  let withoutCommas := strings.ReplaceAll value "," "\," in
  let withoutEquals := strings.ReplaceAll withoutCommas "=" "\=" in
  strings.ReplaceAll withoutEquals " " "\ ".

Definition escapeTagValue (value : string) : string :=
  let escaped := escaped value in
  let runes := runes escaped in
  if (List.length runes <=? stringLimit)%nat then escaped
  else string_of_runes (firstn (stringLimit - 3) runes) ++ "...".

(** ** Package [fmt]: the verbs of the format strings of [main.go] *)

Module fmt.

(** The line feed written as [\n] in the Go literals. *)
Definition nl : string := String "010"%char EmptyString.

(** The double quote character of the Go literals. *)
Definition quote : string := String "034"%char EmptyString.

(** [%t] *)
Definition t (b : bool) : string := if b then "true" else "false".

(** [%v] and [%d] of an integer: decimal digits, with a minus sign. *)
Definition d (z : Z) : string := NilZero.string_of_int (Z.to_int z).

(** [fmt.Sprintln]: the operands separated by spaces, then a line feed. *)
Definition Sprintln (operands : list string) : string :=
  String.concat " " operands ++ nl.

End fmt.

(** ** Data of [main.go] (lines 21-65)

    Only the fields that [main] reads are kept: [Bucket.Created], [Name],
    [Data], [LastUpdated] and [Event.ID] never reach the output.  An event's
    [Timestamp] is used through [Timestamp.Unix()] alone and is kept as
    that number of seconds. *)

Record Bucket : Type := mkBucket {
  Bucket_ID : string;
  Bucket_Type : string;
  Bucket_Client : string;
  Bucket_Hostname : string
}.

Record WebTabCurrent : Type := mkWebTabCurrent {
  WebTabCurrent_URL : string;
  WebTabCurrent_Title : string;
  WebTabCurrent_Audible : bool;
  WebTabCurrent_Incognito : bool
}.

Record AppEditorActivity : Type := mkAppEditorActivity {
  AppEditorActivity_File : string;
  AppEditorActivity_Project : string;
  AppEditorActivity_Language : string
}.

Record CurrentWindow : Type := mkCurrentWindow {
  CurrentWindow_App : string;
  CurrentWindow_Title : string
}.

Record AfkStatus : Type := mkAfkStatus {
  AfkStatus_Status : string
}.

Record StopWatch : Type := mkStopWatch {
  StopWatch_Label : string;
  StopWatch_Running : bool
}.

(** ** Package [net/url]: the parsed form of a URL *)

Module url.

Record URL : Type := mkURL {
  Scheme : string;
  Host : string;
  Path : string;
  RawQuery : string
}.

End url.

(** ** What [main] takes from the standard library without this file
    modelling it

    [encoding/json] decodes an event's [Data] into the struct of the
    bucket's type ([None] stands for a non-nil error), [url.Parse] parses
    the URL of a browser tab, and the verb [%.3f] prints a [float64].  The
    rendering code is embedded over any such functions. *)

Class Externals : Type := {
  float64 : Type;
  RawMessage : Type;
  Sprintf_3f : float64 -> string;
  Unmarshal_WebTabCurrent : RawMessage -> option WebTabCurrent;
  Unmarshal_AppEditorActivity : RawMessage -> option AppEditorActivity;
  Unmarshal_CurrentWindow : RawMessage -> option CurrentWindow;
  Unmarshal_StopWatch : RawMessage -> option StopWatch;
  Unmarshal_AfkStatus : RawMessage -> option AfkStatus;
  url_Parse : string -> option url.URL
}.

Record Event `{Externals} : Type := mkEvent {
  Event_Timestamp_Unix : Z;
  Event_Duration : float64;
  Event_Data : RawMessage
}.

Arguments mkEvent {_} _ _ _.

(** ** The rendering switch of [main] (lines 247-355) *)

(** Why the loop body reached [continue] without a record. *)
Inductive SkipReason : Type :=
| UnmarshalError
| URLParseError
| UnknownType.

(** One turn of the loop over the events: either [influxLine] reaches
    [payload.WriteString] (line 354), or the turn ends in [continue]. *)
Inductive Rendered : Type :=
| Line (influxLine : string)
| Skip (why : SkipReason).

Section Rendering.

Context `{Externals}.

(** [case webTabCurrentType] (lines 250-278). *)
Definition renderWebTabCurrent (entry : Bucket) (event : Event) : Rendered :=
  match Unmarshal_WebTabCurrent (Event_Data event) with
  | None => Skip UnmarshalError
  | Some data =>
    match url_Parse (WebTabCurrent_URL data) with
    | None => Skip URLParseError
    | Some u =>
      let cleanUrl :=
        if String.eqb (url.Host u) EmptyString then EmptyString
        else ",url=" ++ url.Host u in
      Line (Bucket_Type entry
            ++ ",client=" ++ Bucket_Client entry
            ++ ",hostname=" ++ escapeTagValue (Bucket_Hostname entry)
            ++ cleanUrl
            ++ " duration=" ++ Sprintf_3f (Event_Duration event)
            ++ ",audible=" ++ fmt.t (WebTabCurrent_Audible data)
            ++ ",incognito=" ++ fmt.t (WebTabCurrent_Incognito data)
            ++ " " ++ fmt.d (Event_Timestamp_Unix event)
            ++ fmt.nl)
    end
  end.

(** [case appEditorType] (lines 279-295). *)
Definition renderAppEditor (entry : Bucket) (event : Event) : Rendered :=
  match Unmarshal_AppEditorActivity (Event_Data event) with
  | None => Skip UnmarshalError
  | Some data =>
    Line (Bucket_Type entry
          ++ ",client=" ++ Bucket_Client entry
          ++ ",hostname=" ++ escapeTagValue (Bucket_Hostname entry)
          ++ ",project=" ++ escapeTagValue (AppEditorActivity_Project data)
          ++ ",language=" ++ escapeTagValue (AppEditorActivity_Language data)
          ++ ",file=" ++ escapeTagValue (AppEditorActivity_File data)
          ++ " duration=" ++ Sprintf_3f (Event_Duration event)
          ++ " " ++ fmt.d (Event_Timestamp_Unix event)
          ++ fmt.nl)
  end.

(** [case currentWindowType] (lines 296-310). *)
Definition renderCurrentWindow (entry : Bucket) (event : Event) : Rendered :=
  match Unmarshal_CurrentWindow (Event_Data event) with
  | None => Skip UnmarshalError
  | Some data =>
    Line (Bucket_Type entry
          ++ ",client=" ++ Bucket_Client entry
          ++ ",hostname=" ++ escapeTagValue (Bucket_Hostname entry)
          ++ ",app=" ++ escapeTagValue (CurrentWindow_App data)
          ++ " duration=" ++ Sprintf_3f (Event_Duration event)
          ++ " " ++ fmt.d (Event_Timestamp_Unix event)
          ++ fmt.nl)
  end.

(** [case stopwatchType] (lines 311-333). *)
Definition renderStopWatch (entry : Bucket) (event : Event) : Rendered :=
  match Unmarshal_StopWatch (Event_Data event) with
  | None => Skip UnmarshalError
  | Some data =>
    let label :=
      if String.eqb (StopWatch_Label data) EmptyString then EmptyString
      else ",label=" ++ escapeTagValue (StopWatch_Label data) in
    Line (Bucket_Type entry
          ++ ",client=" ++ Bucket_Client entry
          ++ ",hostname=" ++ escapeTagValue (Bucket_Hostname entry)
          ++ label
          ++ " duration=" ++ Sprintf_3f (Event_Duration event)
          ++ ",running=" ++ fmt.t (StopWatch_Running data)
          ++ " " ++ fmt.d (Event_Timestamp_Unix event)
          ++ fmt.nl)
  end.

(** [case afkType] (lines 334-348). *)
Definition renderAfkStatus (entry : Bucket) (event : Event) : Rendered :=
  match Unmarshal_AfkStatus (Event_Data event) with
  | None => Skip UnmarshalError
  | Some data =>
    Line (Bucket_Type entry
          ++ ",client=" ++ Bucket_Client entry
          ++ ",hostname=" ++ escapeTagValue (Bucket_Hostname entry)
          ++ " duration=" ++ Sprintf_3f (Event_Duration event)
          ++ ",status=" ++ fmt.quote ++ AfkStatus_Status data ++ fmt.quote
          ++ " " ++ fmt.d (Event_Timestamp_Unix event)
          ++ fmt.nl)
  end.

(** [switch entry.Type] (line 249): the first case equal to the type. *)
Definition renderEvent (entry : Bucket) (event : Event) : Rendered :=
  if String.eqb (Bucket_Type entry) webTabCurrentType then
    renderWebTabCurrent entry event
  else if String.eqb (Bucket_Type entry) appEditorType then
    renderAppEditor entry event
  else if String.eqb (Bucket_Type entry) currentWindowType then
    renderCurrentWindow entry event
  else if String.eqb (Bucket_Type entry) stopwatchType then
    renderStopWatch entry event
  else if String.eqb (Bucket_Type entry) afkType then
    renderAfkStatus entry event
  else Skip UnknownType.

(** The loop of lines 247-355 run by one task alone: the text it appends
    to the payload, record after record. *)
Fixpoint renderEvents (entry : Bucket) (events : list Event) : string :=
  match events with
  | [] => EmptyString
  | event :: rest =>
    match renderEvent entry event with
    | Line influxLine => influxLine ++ renderEvents entry rest
    | Skip _ => renderEvents entry rest
    end
  end.

End Rendering.

(** ** Package [net/http]: what the retrying transport reads of a response *)

Module http.

Definition StatusOK : Z := 200.
Definition StatusNoContent : Z := 204.
Definition StatusInternalServerError : Z := 500.
Definition StatusBadGateway : Z := 502.
Definition StatusServiceUnavailable : Z := 503.
Definition StatusGatewayTimeout : Z := 504.

Record Response : Type := mkResponse {
  StatusCode : Z;
  Status : string
}.

End http.

(** A non-nil [error], kept as the text of [err.Error()]. *)
Definition error : Type := string.

(** ** [shouldRetry] (lines 90-103)

    The two arguments are the two results of [RoundTrip]; [None] is [nil]. *)
Definition shouldRetry (err : option error) (resp : option http.Response) : bool :=
  match err with
  | Some _ => true
  | None =>
    match resp with
    | None => true
    | Some r =>
      if (http.StatusCode r =? http.StatusInternalServerError)
         || (http.StatusCode r =? http.StatusBadGateway)
         || (http.StatusCode r =? http.StatusServiceUnavailable)
         || (http.StatusCode r =? http.StatusGatewayTimeout)
      then true
      else false
    end
  end.

(** ** [retryableTransport.RoundTrip] (lines 105-131)

    The wrapped [t.transport] is given by what its successive calls return:
    [transport k] is the pair [(resp, err)] of call number [k], the first
    attempt being call [0].  Every call receives the same request (its body
    is buffered at lines 107-110 and set again at 120-122); bodies do not
    steer the loop and are left out.  What the loop does besides calling is
    recorded in order. *)

Definition RoundTripper : Type := nat -> option http.Response * option error.

Inductive Effect : Type :=
| Sleep (seconds : Z)                  (* time.Sleep(backoff), line 115 *)
| LogPreviousFailed (status : string)  (* line 124 *)
| LogRetry (n : nat).                  (* line 126 *)

(** Lines 123-125. *)
Definition logPrevious (resp : option http.Response) : list Effect :=
  match resp with
  | Some r =>
    if String.eqb (http.Status r) EmptyString then []
    else [LogPreviousFailed (http.Status r)]
  | None => []
  end.

(** What a run of [RoundTrip] leaves: the pair it returns, the final value
    of [retries], and the effects of the loop. *)
Record RoundTripRun : Type := mkRoundTripRun {
  run_resp : option http.Response;
  run_err : option error;
  run_retries : nat;
  run_effects : list Effect
}.

(** A value together with the equation that it is the value of the
    expression tested: the loop condition stays known in each branch. *)
Definition inspect {A : Type} (a : A) : {b : A | a = b} := exist _ a eq_refl.

(** The loop of lines 113-129; [retryCount - retries] decreases. *)
Equations? retryLoop (transport : RoundTripper)
    (resp : option http.Response) (err : option error)
    (retries : nat) (effects : list Effect)
  : RoundTripRun by wf (retryCount - retries)%nat lt :=
  retryLoop transport resp err retries effects
    with inspect (shouldRetry err resp && (retries <? retryCount)%nat) := {
    | exist _ true _ =>
        retryLoop transport
          (fst (transport (S retries))) (snd (transport (S retries)))
          (S retries)
          (effects ++ [Sleep (2 ^ Z.of_nat retries)]
                   ++ logPrevious resp
                   ++ [LogRetry (retries + 1)]);
    | exist _ false _ => mkRoundTripRun resp err retries effects }.
Proof.
  apply andb_true_iff in e. destruct e as [_ Hlt].
  apply Nat.ltb_lt in Hlt. unfold retryCount in Hlt.
  destruct retries as [|[|[|k]]]; lia.
Qed.

Definition RoundTrip (transport : RoundTripper) : RoundTripRun :=
  retryLoop transport (fst (transport 0%nat)) (snd (transport 0%nat)) 0 [].

(** ** The per-bucket task of [main] (lines 219-357) *)

(** Go's [int64]: the integers modulo [2^64], read in two's complement. *)
Definition int64 (z : Z) : Z := (z + 2 ^ 63) mod 2 ^ 64 - 2 ^ 63.

(** What the tasks share: the payload buffer, the counter [apiErrors] and
    the lines [handleApiError] logs to the error stream.  What the loop and
    the transport log through [log.Printf] is not kept here. *)
Record Harvest : Type := mkHarvest {
  payload : string;
  apiErrors : Z;
  stderr : list string
}.

(** [handleApiError] (lines 133-138): [apiErrors.Add(1)] and one log line. *)
Definition handleApiError (message : string) (err : string) (st : Harvest)
  : Harvest :=
  {| payload := payload st;
     apiErrors := int64 (apiErrors st + 1);
     stderr := stderr st ++ [fmt.Sprintln [message; err]] |}.

(** What the request for a bucket's events came to (lines 225-245). *)
Inductive EventsResponse `{Externals} : Type :=
| GetFailed (err : error)        (* client.Do returned an error *)
| ReadFailed (err : error)       (* io.ReadAll returned an error *)
| Answered (StatusCode : Z) (body : string)
           (events : list Event + error). (* json.Unmarshal of the body *)

Arguments GetFailed {_} _.
Arguments ReadFailed {_} _.
Arguments Answered {_} _ _ _.

Section Harvesting.

Context `{Externals}.

Definition bucketTask (entry : Bucket) (r : EventsResponse) (st : Harvest)
  : Harvest :=
  match r with
  | GetFailed err =>
    handleApiError
      ("Error trying to get events for bucket=" ++ Bucket_ID entry ++ ": ")
      err st
  | ReadFailed err =>
    handleApiError
      ("Error reading events data for bucket=" ++ Bucket_ID entry ++ ": ")
      err st
  | Answered code body events =>
    if negb (code =? http.StatusOK) then
      handleApiError
        ("Error trying to get events data for bucket=" ++ Bucket_ID entry
         ++ ":" ++ fmt.nl)
        "<nil>" st
    else
      match events with
      | inr err =>
        handleApiError
          ("Error unmarshalling events data for bucket=" ++ Bucket_ID entry
           ++ " api response data: " ++ body)
          err st
      | inl events =>
        {| payload := payload st ++ renderEvents entry events;
           apiErrors := apiErrors st;
           stderr := stderr st |}
      end
  end.

(** The tasks run one after another, each to its end: one of the schedules
    of the goroutines started at line 219.  The counter does not depend on
    the schedule; module [race] below looks at the buffer under the
    others. *)
Definition harvest (sources : list (Bucket * EventsResponse)) : Harvest :=
  fold_left (fun st source => bucketTask (fst source) (snd source) st)
            sources
            {| payload := EmptyString; apiErrors := 0; stderr := [] |}.

(** Whether a source's task ends in [handleApiError]. *)
Definition sourceFails (source : Bucket * EventsResponse) : bool :=
  match snd source with
  | GetFailed _ => true
  | ReadFailed _ => true
  | Answered code _ events =>
    negb (code =? http.StatusOK)
    || match events with inr _ => true | inl _ => false end
  end.

End Harvesting.

(** ** The delivery tail of [main] (lines 363-394) *)

(** What compressing and posting the payload came to. *)
Inductive Delivery : Type :=
| CompressFailed (err : error)   (* w.Close() returned an error *)
| SendFailed (err : error)       (* client.Do(post) returned an error *)
| ReadBodyFailed (err : error)   (* io.ReadAll(resp.Body) returned an error *)
| Responded (StatusCode : Z) (body : string).

(** How [main] ends: it returns, or a [log.Fatal*] call logs a message and
    exits with status 1. *)
Inductive Exit : Type :=
| Returned
| Fatal (message : string).

Definition deliver (payload : string) (apiErrors : Z)
    (upload : string -> Delivery) : Exit :=
  if (String.length payload =? 0)%nat then
    Fatal (fmt.Sprintln ["No data to send"])
  else
    match upload payload with
    | CompressFailed err => Fatal (fmt.Sprintln ["Error compressing data: "; err])
    | SendFailed err => Fatal (fmt.Sprintln ["Error sending data: "; err])
    | ReadBodyFailed err => Fatal (fmt.Sprintln ["Error reading data: "; err])
    | Responded code body =>
      if negb (code =? 204) then Fatal ("Error sending data: " ++ body)
      else if 0 <? apiErrors then
        Fatal ("Errors: " ++ fmt.d apiErrors ++ fmt.nl)
      else Returned
    end.

(** [main] from line 214 on, over the sources found at lines 194-212. *)
Definition run `{Externals} (sources : list (Bucket * EventsResponse))
    (upload : string -> Delivery) : Exit :=
  let st := harvest sources in
  deliver (payload st) (apiErrors st) upload.

(** ** Reading a tag value back

    Follows the spec's words (section 8, first property): the escaper's
    output is split on unescaped delimiters and the escapes are undone.  A
    delimiter is a comma, an equals sign or a space; it is escaped when a
    backslash stands right before it, the text being read left to right. *)

Definition isDelimiter (c : ascii) : bool :=
  Ascii.eqb c "," || Ascii.eqb c "=" || Ascii.eqb c " ".

(** Put one more byte in front of the first piece. *)
Definition onFirst (c : ascii) (pieces : list string) : list string :=
  match pieces with
  | [] => [String c EmptyString]
  | p :: ps => String c p :: ps
  end.

(** The pieces between the unescaped delimiters, escapes kept. *)
Fixpoint spec_splitUnescaped (s : string) : list string :=
  match s with
  | EmptyString => [EmptyString]
  | String c t =>
    if Ascii.eqb c "\" then
      match t with
      | String e t' =>
        if isDelimiter e then onFirst c (onFirst e (spec_splitUnescaped t'))
        else onFirst c (spec_splitUnescaped t)
      | EmptyString => [String c EmptyString]
      end
    else if isDelimiter c then EmptyString :: spec_splitUnescaped t
    else onFirst c (spec_splitUnescaped t)
  end.

(** A piece with its escapes undone: backslash-delimiter gives the
    delimiter, any other backslash stands for itself. *)
Fixpoint spec_unescape (s : string) : string :=
  match s with
  | EmptyString => EmptyString
  | String c t =>
    if Ascii.eqb c "\" then
      match t with
      | String e t' =>
        if isDelimiter e then String e (spec_unescape t')
        else String c (spec_unescape t)
      | EmptyString => String c EmptyString
      end
    else String c (spec_unescape t)
  end.

Definition spec_readTagValues (s : string) : list string :=
  map spec_unescape (spec_splitUnescaped s).

(** ** The retry trigger

    Follows the spec's words (section 4.1): the call returned an error, or
    a response with status 500, 502, 503 or 504. *)

Definition spec_retryTrigger (res : option http.Response * option error)
  : bool :=
  match res with
  | (_, Some _) => true
  | (Some r, None) => existsb (Z.eqb (http.StatusCode r)) [500; 502; 503; 504]
  | (None, None) => false
  end.

(** A call that returned neither a response nor an error: the case of
    lines 94-96. *)
Definition noAnswer (res : option http.Response * option error) : bool :=
  match res with
  | (None, None) => true
  | _ => false
  end.

(** The contract of [http.RoundTripper]: a call returns a response or an
    error (as [http.Transport], the transport [main] wraps, does). *)
Definition answers (transport : RoundTripper) : Prop :=
  forall k, noAnswer (transport k) = false.

(** ** The shared buffer under the schedules of the tasks (lines 215-219, 354)

    Each task is handed [&payload] and calls [payload.WriteString] once per
    record; [main.go] takes no lock around the call ([sync.WaitGroup] and
    [atomic.Int64] are its only synchronisation).  [bytes.Buffer.WriteString]
    is not one step: it first reads the length [m] of the buffer
    ([tryGrowByReslice] or [grow]), then reslices to [m + len(s)] and copies
    [s] at offset [m].  A schedule names, step after step, the task that
    moves. *)

Module race.

Record Task : Type := mkTask {
  inflight : option (nat * string);  (* inside WriteString: m and s *)
  pending : list string              (* records not appended yet *)
}.

Record World : Type := mkWorld {
  buffer : string;
  tasks : list Task
}.

(** [b.buf = b.buf[:m+len(s)]; copy(b.buf[m:], s)] for [m] within the
    buffer; the stale bytes of a buffer shorter than [m] are not modelled. *)
Definition writeAt (m : nat) (s : string) (b : string) : string :=
  String.substring 0 m b ++ s.

(** One step of a task on the buffer. *)
Definition stepTask (b : string) (t : Task) : string * Task :=
  match inflight t with
  | Some (m, s) => (writeAt m s b, mkTask None (pending t))
  | None =>
    match pending t with
    | [] => (b, t)
    | s :: rest => (b, mkTask (Some (String.length b, s)) rest)
    end
  end.

Fixpoint stepNth (i : nat) (b : string) (ts : list Task) : string * list Task :=
  match ts with
  | [] => (b, [])
  | t :: ts' =>
    match i with
    | O => let '(b', t') := stepTask b t in (b', t' :: ts')
    | S j => let '(b', ts'') := stepNth j b ts' in (b', t :: ts'')
    end
  end.

Definition step (i : nat) (w : World) : World :=
  let '(b, ts) := stepNth i (buffer w) (tasks w) in mkWorld b ts.

Definition exec (schedule : list nat) (w : World) : World :=
  fold_left (fun w i => step i w) schedule w.

(** The tasks as line 219 starts them: an empty buffer, and for each task
    the records its loop will append. *)
Definition start (records : list (list string)) : World :=
  mkWorld EmptyString (map (mkTask None) records).

Definition inWriteString (t : Task) : bool :=
  match inflight t with Some _ => true | None => false end.

Definition finished (t : Task) : bool :=
  negb (inWriteString t)
  && match pending t with [] => true | _ :: _ => false end.

(** Mutual exclusion of the appends: at most one task inside
    [WriteString]. *)
Definition exclusive (w : World) : bool :=
  (List.length (filter inWriteString (tasks w)) <=? 1)%nat.

End race.

(** ** Definitions used in the proofs *)

(** The three replacements as one pass: a backslash before each delimiter. *)
Fixpoint escapeBytes (s : string) : string :=
  match s with
  | EmptyString => EmptyString
  | String c t =>
    if isDelimiter c then String "\" (String c (escapeBytes t))
    else String c (escapeBytes t)
  end.

Section Records.

Context `{Externals}.

(** The records one task renders, in order. *)
Fixpoint records (entry : Bucket) (events : list Event) : list string :=
  match events with
  | [] => []
  | event :: rest =>
    match renderEvent entry event with
    | Line influxLine => influxLine :: records entry rest
    | Skip _ => records entry rest
    end
  end.

(** The records of all the sources whose events were fetched and decoded. *)
Fixpoint harvestedRecords (sources : list (Bucket * EventsResponse))
  : list string :=
  match sources with
  | [] => []
  | (entry, Answered code _ (inl events)) :: rest =>
    if code =? http.StatusOK
    then (records entry events ++ harvestedRecords rest)%list
    else harvestedRecords rest
  | _ :: rest => harvestedRecords rest
  end.

End Records.

(** ** A concrete choice of the external functions

    Used to run the definitions on examples: a duration is a number of
    thousandths of a second, an event payload is given already decoded (or
    is malformed), and URLs of the shape [scheme://host/path?query] are
    split at their separators. *)

Module Sample.

Inductive Payload : Type :=
| JWebTab (data : WebTabCurrent)
| JEditor (data : AppEditorActivity)
| JWindow (data : CurrentWindow)
| JStopWatch (data : StopWatch)
| JAfk (data : AfkStatus)
| JMalformed.

(** Three digits after the point. *)
Definition format3 (thousandths : Z) : string :=
  let frac := thousandths mod 1000 in
  fmt.d (thousandths / 1000) ++ "."
  ++ (if frac <? 10 then "00" else if frac <? 100 then "0" else EmptyString)
  ++ fmt.d frac.

(** The text before the first byte satisfying [stop], and the rest. *)
Fixpoint breakAt (stop : ascii -> bool) (s : string) : string * string :=
  match s with
  | EmptyString => (EmptyString, EmptyString)
  | String c t =>
    if stop c then (EmptyString, s)
    else let '(a, b) := breakAt stop t in (String c a, b)
  end.

Fixpoint hasControl (s : string) : bool :=
  match s with
  | EmptyString => false
  | String c t => (byteZ c <? 0x20) || (byteZ c =? 0x7F) || hasControl t
  end.

Definition Parse (rawURL : string) : option url.URL :=
  if hasControl rawURL then None
  else
    match String.index 0 "://" rawURL with
    | Some n =>
      let scheme := String.substring 0 n rawURL in
      let '(host, rest) :=
        breakAt (fun c => Ascii.eqb c "/" || Ascii.eqb c "?")
                (drop (n + 3) rawURL) in
      let '(path, query) := breakAt (fun c => Ascii.eqb c "?") rest in
      Some (url.mkURL scheme host path (drop 1 query))
    | None =>
      let '(path, query) := breakAt (fun c => Ascii.eqb c "?") rawURL in
      Some (url.mkURL EmptyString EmptyString path (drop 1 query))
    end.

#[export] Instance externals : Externals := {|
  float64 := Z;
  RawMessage := Payload;
  Sprintf_3f := format3;
  Unmarshal_WebTabCurrent j :=
    match j with
    | JWebTab data => Some data
    | JMalformed => None
    | _ => Some (mkWebTabCurrent EmptyString EmptyString false false)
    end;
  Unmarshal_AppEditorActivity j :=
    match j with
    | JEditor data => Some data
    | JMalformed => None
    | _ => Some (mkAppEditorActivity EmptyString EmptyString EmptyString)
    end;
  Unmarshal_CurrentWindow j :=
    match j with
    | JWindow data => Some data
    | JMalformed => None
    | _ => Some (mkCurrentWindow EmptyString EmptyString)
    end;
  Unmarshal_StopWatch j :=
    match j with
    | JStopWatch data => Some data
    | JMalformed => None
    | _ => Some (mkStopWatch EmptyString false)
    end;
  Unmarshal_AfkStatus j :=
    match j with
    | JAfk data => Some data
    | JMalformed => None
    | _ => Some (mkAfkStatus EmptyString)
    end;
  url_Parse := Parse
|}.

(** Sample sources: a window watcher with one event, a bucket of a type
    the switch does not know, and a bucket whose request failed. *)
Definition window : Bucket * EventsResponse :=
  (mkBucket "aw-watcher-window_desktop" "currentwindow" "aw-watcher-window"
            "desktop",
   Answered 200 "[...]"
     (inl [mkEvent 1741974028 25523
             (JWindow (mkCurrentWindow "firefox" "Mozilla Firefox"))])).

Definition unknown : Bucket * EventsResponse :=
  (mkBucket "aw-watcher-input_desktop" "os.hid.input" "aw-watcher-input"
            "desktop",
   Answered 200 "[...]" (inl [mkEvent 1741974028 1000 JMalformed])).

Definition failed : Bucket * EventsResponse :=
  (mkBucket "aw-watcher-afk_desktop" "afkstatus" "aw-watcher-afk" "desktop",
   GetFailed "connection refused").

(** Sample browser tabs: a page on a host, a URL with no host, a URL that
    does not parse (it holds a control character), and a host that holds
    delimiters. *)
Definition web : Bucket :=
  mkBucket "aw-watcher-web-firefox" "web.tab.current" "aw-client-web"
           "desktop".

Definition tabOn (rawURL : string) : Event :=
  mkEvent 1741974028 25003
    (JWebTab (mkWebTabCurrent rawURL "a title" true false)).

(** A status holding a double quote, a backslash, a space and a comma. *)
Definition oddStatus : string := "not" ++ fmt.quote ++ "afk\ a,b".

Definition afkEvent : Event :=
  mkEvent 1741974028 1500 (JAfk (mkAfkStatus oddStatus)).

(** A window watcher whose client name and hostname hold a space. *)
Definition spaced : Bucket :=
  mkBucket "aw-watcher-window_desk" "currentwindow" "my client" "desk top".

Definition spacedEvent : Event :=
  mkEvent 1741974028 25523 (JWindow (mkCurrentWindow "fire fox" "a title")).

(** The transport of the spec's example: 503, 503, then 200. *)
Definition twice503 : RoundTripper :=
  fun k =>
    match k with
    | 0%nat | 1%nat =>
      (Some (http.mkResponse 503 "503 Service Unavailable"), None)
    | _ => (Some (http.mkResponse 200 "200 OK"), None)
    end.

(** A transport whose first call returns two [nil]s, the next ones 200. *)
Definition nilThen200 : RoundTripper :=
  fun k =>
    match k with
    | 0%nat => (None, None)
    | _ => (Some (http.mkResponse 200 "200 OK"), None)
    end.

End Sample.

(** ** [escapeTagValue]: delimiters and their escapes *)

(** The number of delimiters (commas, equals signs, spaces) of a string. *)
Fixpoint countDelimiters (s : string) : nat :=
  match s with
  | EmptyString => 0%nat
  | String c t =>
    if isDelimiter c then S (countDelimiters t) else countDelimiters t
  end.

(** Every delimiter of [s] stands right after a backslash; [prev] tells
    whether a backslash stands right before [s]. *)
Fixpoint delimitersEscapedFrom (prev : bool) (s : string) : bool :=
  match s with
  | EmptyString => true
  | String c t =>
    (if isDelimiter c then prev else true)
    && delimitersEscapedFrom (Ascii.eqb c "\") t
  end.

Definition delimitersEscaped (s : string) : bool :=
  delimitersEscapedFrom false s.

(** The same on code points. *)
Definition isDelimiterRune (r : Z) : bool :=
  (r =? 44) || (r =? 61) || (r =? 32).

Fixpoint runesEscapedFrom (prev : bool) (rs : list Z) : bool :=
  match rs with
  | [] => true
  | r :: rs' =>
    (if isDelimiterRune r then prev else true)
    && runesEscapedFrom (r =? 92) rs'
  end.

(** No byte of the string is an ASCII byte. *)
Fixpoint allHigh (s : string) : bool :=
  match s with
  | EmptyString => true
  | String c t => (0x80 <=? byteZ c) && allHigh t
  end.

(** ** The effects of [RoundTrip] (lines 114-126) *)

(** What the loop of [RoundTrip] does before retry number [k + 1]
    (lines 114-126), [resp] being what call [k] returned. *)
Definition retryEffects (transport : RoundTripper) (k : nat) : list Effect :=
  (Sleep (2 ^ Z.of_nat k)
   :: logPrevious (fst (transport k)) ++ [LogRetry (k + 1)])%list.

(** The seconds slept in a list of effects. *)
Fixpoint secondsSlept (effects : list Effect) : Z :=
  match effects with
  | [] => 0
  | Sleep seconds :: rest => seconds + secondsSlept rest
  | _ :: rest => secondsSlept rest
  end.

(** ** [RoundTrip] with the request body (lines 106-110, 120-122)

    [req.Body] is a stream read once: [None] is [nil], [Some s] a body with
    [s] still to read.  A call of the wrapped transport is handed the
    stream, returns its pair, and has read some bytes of the stream by
    then. *)

Definition BodyTripper : Type :=
  nat -> option string -> (option http.Response * option error) * nat.

(** [req.Body] after a call that read [n] bytes of it. *)
Definition afterCall (body : option string) (n : nat) : option string :=
  match body with
  | Some s => Some (drop n s)
  | None => None
  end.

(** Lines 120-122: a body that is not [nil] is set to a new buffer over
    [bodyBytes]. *)
Definition resetBody (body : option string) (bodyBytes : string)
  : option string :=
  match body with
  | Some _ => Some bodyBytes
  | None => None
  end.

Record BodyRun : Type := mkBodyRun {
  body_resp : option http.Response;
  body_err : option error;
  body_retries : nat;
  body_effects : list Effect;
  body_handed : list (option string)  (* req.Body at each call, in order *)
}.

Equations? retryLoopBody (transport : BodyTripper) (bodyBytes : string)
    (resp : option http.Response) (err : option error)
    (reqBody : option string)
    (retries : nat) (effects : list Effect) (handed : list (option string))
  : BodyRun by wf (retryCount - retries)%nat lt :=
  retryLoopBody transport bodyBytes resp err reqBody retries effects handed
    with inspect (shouldRetry err resp && (retries <? retryCount)%nat) := {
    | exist _ true _ =>
        retryLoopBody transport bodyBytes
          (fst (fst (transport (S retries) (resetBody reqBody bodyBytes))))
          (snd (fst (transport (S retries) (resetBody reqBody bodyBytes))))
          (afterCall (resetBody reqBody bodyBytes)
             (snd (transport (S retries) (resetBody reqBody bodyBytes))))
          (S retries)
          (effects ++ [Sleep (2 ^ Z.of_nat retries)]
                   ++ logPrevious resp
                   ++ [LogRetry (retries + 1)])
          (handed ++ [resetBody reqBody bodyBytes]);
    | exist _ false _ => mkBodyRun resp err retries effects handed }.
Proof.
  apply andb_true_iff in e. destruct e as [_ Hlt].
  apply Nat.ltb_lt in Hlt. unfold retryCount in Hlt.
  destruct retries as [|[|[|k]]]; lia.
Qed.

(** [RoundTrip] on a request whose body is [body]: [io.ReadAll] empties
    the stream into [bodyBytes] (lines 107-110) before the first call; [s]
    in [Some s] is what it returns, its error being dropped at line 108. *)
Definition RoundTripBody (transport : BodyTripper) (body : option string)
  : BodyRun :=
  let bodyBytes := match body with Some s => s | None => EmptyString end in
  let reqBody := resetBody body bodyBytes in
  retryLoopBody transport bodyBytes
    (fst (fst (transport 0%nat reqBody))) (snd (fst (transport 0%nat reqBody)))
    (afterCall reqBody (snd (transport 0%nat reqBody)))
    0 [] [reqBody].

(** Sample transports. *)

(** A transport that answers 503 to every call. *)
Definition always503 : RoundTripper :=
  fun _ => (Some (http.mkResponse 503 "503 Service Unavailable"), None).

(** [transport] up to its fourth call, 200 from the fifth on. *)
Definition thenOK (transport : RoundTripper) : RoundTripper :=
  fun k => if (k <=? 3)%nat then transport k
           else (Some (http.mkResponse 200 "200 OK"), None).

(** A transport that reads the body to its end at every call and answers
    503 to the first call, 204 afterwards. *)
Definition greedy : BodyTripper :=
  fun k body =>
    (match k with
     | 0%nat => (Some (http.mkResponse 503 "503 Service Unavailable"), None)
     | _ => (Some (http.mkResponse 204 "204 No Content"), None)
     end,
     match body with Some s => String.length s | None => 0%nat end).

(** ** The five cases of the switch, and the records of a source *)

(** Whether a bucket type is one of the five cases of the switch of
    line 249. *)
Definition knownType (type : string) : bool :=
  String.eqb type webTabCurrentType
  || String.eqb type appEditorType
  || String.eqb type currentWindowType
  || String.eqb type stopwatchType
  || String.eqb type afkType.

Section MoreRecords.

Context `{Externals}.

(** The records of one source: none when its request failed. *)
Definition sourceRecords (source : Bucket * EventsResponse) : list string :=
  match snd source with
  | Answered code _ (inl events) =>
    if code =? http.StatusOK then records (fst source) events else []
  | _ => []
  end.


End MoreRecords.

Section Framing.

Context `{Externals}.

(** A record between its opening and its closing. *)
Definition framed (entry : Bucket) (event : Event) (l : string) : Prop :=
  exists middle,
    l = Bucket_Type entry
        ++ ",client=" ++ Bucket_Client entry
        ++ ",hostname=" ++ escapeTagValue (Bucket_Hostname entry)
        ++ middle
        ++ " " ++ fmt.d (Event_Timestamp_Unix event)
        ++ fmt.nl.

End Framing.

(** ** The start of [main] (lines 152-212) *)

(** [Config] (lines 67-73). *)
Record Config : Type := mkConfig {
  Config_Bucket : string;
  Config_InfluxDBHost : string;
  Config_InfluxDBApiToken : string;
  Config_Org : string;
  Config_ActivityWatchUrl : string
}.

(** What opening and decoding the configuration file came to
    (lines 153-162). *)
Inductive ConfigFile : Type :=
| OpenFailed (err : error)
| DecodeFailed (err : error)
| Decoded (config : Config).

(** The five tests of lines 163-177: the message of the first that fails. *)
Definition checkConfig (config : Config) : option string :=
  if String.eqb (Config_ActivityWatchUrl config) EmptyString then
    Some (fmt.Sprintln ["ActivityWatchUrl is required"])
  else if String.eqb (Config_Bucket config) EmptyString then
    Some (fmt.Sprintln ["Bucket is required"])
  else if String.eqb (Config_InfluxDBHost config) EmptyString then
    Some (fmt.Sprintln ["InfluxDBHost is required"])
  else if String.eqb (Config_InfluxDBApiToken config) EmptyString then
    Some (fmt.Sprintln ["InfluxDBApiToken is required"])
  else if String.eqb (Config_Org config) EmptyString then
    Some (fmt.Sprintln ["Org is required"])
  else None.

(** What the request for the bucket list came to (lines 194-212); the
    buckets stand in the order in which line 216 ranges over the map. *)
Inductive BucketsResponse : Type :=
| BucketsGetFailed (err : error)
| BucketsReadFailed (err : error)
| BucketsAnswered (StatusCode : Z) (body : string)
                  (buckets : list Bucket + error).

(** Lines 195-212: the buckets, or the message of the fatal log call. *)
Definition discover (r : BucketsResponse) : list Bucket + string :=
  match r with
  | BucketsGetFailed err =>
    inr (fmt.Sprintln ["Error trying to get bucket list: "; err])
  | BucketsReadFailed err =>
    inr (fmt.Sprintln ["Error reading bucket list data: "; err])
  | BucketsAnswered code body buckets =>
    if negb (code =? http.StatusOK) then
      inr ("Error trying to get bucket list: " ++ body ++ fmt.nl)
    else
      match buckets with
      | inr err =>
        inr (fmt.Sprintln ["Error unmarshalling bucket list data: "; err])
      | inl buckets => inl buckets
      end
  end.

(** [main], once [flag.Parse] has returned: the configuration, the
    discovery, then the tasks and the delivery ([run]). *)
Definition main `{Externals} (conf : ConfigFile) (bucketsResp : BucketsResponse)
    (getEvents : Bucket -> EventsResponse) (upload : string -> Delivery)
  : Exit :=
  match conf with
  | OpenFailed err => Fatal (fmt.Sprintln ["Error reading config file: "; err])
  | DecodeFailed err =>
    Fatal (fmt.Sprintln ["Error reading configuration: "; err])
  | Decoded config =>
    match checkConfig config with
    | Some message => Fatal message
    | None =>
      match discover bucketsResp with
      | inr message => Fatal message
      | inl buckets =>
        run (map (fun entry => (entry, getEvents entry)) buckets) upload
      end
    end
  end.

(** ** Package [log]: where the standard logger writes *)

Module log.

Inductive Stream : Type :=
| Stdout
| Stderr.

(** The output of the standard logger before any call of [SetOutput]. *)
Definition std : Stream := Stderr.

(** [log.SetOutput(w)], on the output of the standard logger. *)
Definition SetOutput (w : Stream) (output : Stream) : Stream := w.

End log.

(** ** [handleApiError] and the tasks, on the output of the logger *)

(** Lines 135-137: the stream line 136 writes to, and the output the
    logger is left with. *)
Definition handleApiError_output (output : log.Stream)
  : log.Stream * log.Stream :=
  let output := log.SetOutput log.Stderr output in
  let line := output in
  (line, log.SetOutput log.Stdout output).

(** The output of the logger after a task: the task calls
    [handleApiError] once when the source fails, and leaves the output as
    it is otherwise. *)
Definition bucketTask_output `{Externals} (entry : Bucket)
    (r : EventsResponse) (output : log.Stream) : log.Stream :=
  if sourceFails (entry, r) then snd (handleApiError_output output)
  else output.

(** The output of the logger when [wg.Wait] returns (line 361), the tasks
    having run one after another. *)
Definition harvest_output `{Externals}
    (sources : list (Bucket * EventsResponse)) : log.Stream :=
  fold_left (fun output source =>
               bucketTask_output (fst source) (snd source) output)
            sources log.std.

(** ** More sample data, over the external functions of [Sample] *)

Module Cases.

Import Sample.

(** A stopwatch bucket of the web UI and an event with a given label. *)
Definition stopwatch : Bucket :=
  mkBucket "aw-stopwatch" "general.stopwatch" "aw-webui" "desktop".

Definition timer (label : string) : Event :=
  mkEvent 1741974028 90000 (JStopWatch (mkStopWatch label true)).

(** A full configuration, and the answer listing the window watcher. *)
Definition config : Config :=
  mkConfig "activity" "influx.example.org" "token" "home"
           "http://localhost:5600".

Definition bucketList : BucketsResponse :=
  BucketsAnswered 200 "{...}" (inl [fst window]).

Definition events (entry : Bucket) : EventsResponse := snd window.

End Cases.

(** * Properties *)

(** ** Bytes and bit operations *)

Lemma byteZ_range c : 0 <= byteZ c < 256.
Proof.
  unfold byteZ. pose proof (N_ascii_bounded c). lia.
Qed.

Lemma byteZ_chr z : 0 <= z < 256 -> byteZ (chr z) = z.
Proof.
  intros Hz. unfold byteZ, chr.
  rewrite N_ascii_embedding by lia. lia.
Qed.

Lemma chr_byteZ c : chr (byteZ c) = c.
Proof.
  unfold byteZ, chr. rewrite N2Z.id. apply ascii_N_embedding.
Qed.

(** Bits that do not overlap add up. *)
Lemma lor_disjoint_add a b n :
  0 <= n -> 0 <= b < 2 ^ n -> Z.lor (a * 2 ^ n) b = a * 2 ^ n + b.
Proof.
  intros Hn Hb.
  rewrite <- Z.add_lor_land.
  assert (Hland : Z.land (a * 2 ^ n) b = 0).
  { apply Z.bits_inj'. intros i Hi.
    rewrite Z.land_spec, Z.bits_0.
    destruct (Z.lt_ge_cases i n) as [Hlt|Hge].
    - rewrite Z.mul_pow2_bits_low by lia. reflexivity.
    - destruct (Z.eq_dec b 0) as [->|Hnz].
      + rewrite Z.bits_0. apply andb_false_r.
      + rewrite (Z.bits_above_log2 b i); [apply andb_false_r|lia|].
        apply Z.log2_lt_pow2; [lia|].
        apply Z.lt_le_trans with (2 ^ n); [lia|].
        apply Z.pow_le_mono_r; lia. }
  rewrite Hland. lia.
Qed.

Lemma land_low a n : 0 <= n -> Z.land a (2 ^ n - 1) = a mod 2 ^ n.
Proof.
  intros Hn. rewrite <- Z.land_ones by assumption.
  f_equal. rewrite Z.ones_equiv. lia.
Qed.

(** Linear arithmetic with division and remainder by constants. *)
Ltac divlia := Z.to_euclidean_division_equations; lia.

Ltac pow2 :=
  change (2 ^ 3) with 8 in *; change (2 ^ 4) with 16 in *;
  change (2 ^ 5) with 32 in *; change (2 ^ 6) with 64 in *;
  change (2 ^ 7) with 128 in *; change (2 ^ 12) with 4096 in *;
  change (2 ^ 18) with 262144 in *.

(** [Z.lor (a << n) b] for [b] below [2^n], with the power evaluated. *)
Lemma lor_shift a b n m :
  0 <= n -> m = 2 ^ n -> 0 <= b < m -> Z.lor (a * m) b = a * m + b.
Proof. intros Hn -> Hb. apply lor_disjoint_add; assumption. Qed.

Lemma land_mask a n m :
  0 <= n -> m = 2 ^ n -> Z.land a (m - 1) = a mod m.
Proof. intros Hn ->. apply land_low; assumption. Qed.

Lemma dec2_arith s0 s1 :
  Z.lor (Z.shiftl (Z.land s0 utf8.mask2) 6) (Z.land s1 utf8.maskx)
  = (s0 mod 32) * 64 + s1 mod 64.
Proof.
  change utf8.mask2 with (32 - 1). change utf8.maskx with (64 - 1).
  rewrite (land_mask s0 5 32), (land_mask s1 6 64) by (reflexivity || divlia).
  rewrite Z.shiftl_mul_pow2 by lia. pow2.
  apply (lor_shift _ _ 6); [lia|reflexivity|divlia].
Qed.

Lemma dec3_arith s0 s1 s2 :
  Z.lor (Z.lor (Z.shiftl (Z.land s0 utf8.mask3) 12)
               (Z.shiftl (Z.land s1 utf8.maskx) 6))
        (Z.land s2 utf8.maskx)
  = (s0 mod 16) * 4096 + (s1 mod 64) * 64 + s2 mod 64.
Proof.
  change utf8.mask3 with (16 - 1). change utf8.maskx with (64 - 1).
  rewrite (land_mask s0 4 16), (land_mask s1 6 64), (land_mask s2 6 64)
    by (reflexivity || divlia).
  rewrite !Z.shiftl_mul_pow2 by lia. pow2.
  rewrite (lor_shift (s0 mod 16) _ 12 4096) by (reflexivity || divlia).
  replace (s0 mod 16 * 4096 + s1 mod 64 * 64)
    with ((s0 mod 16 * 64 + s1 mod 64) * 64) by divlia.
  rewrite (lor_shift _ _ 6 64) by (reflexivity || divlia). divlia.
Qed.

Lemma dec4_arith s0 s1 s2 s3 :
  Z.lor (Z.lor (Z.lor (Z.shiftl (Z.land s0 utf8.mask4) 18)
                      (Z.shiftl (Z.land s1 utf8.maskx) 12))
               (Z.shiftl (Z.land s2 utf8.maskx) 6))
        (Z.land s3 utf8.maskx)
  = (s0 mod 8) * 262144 + (s1 mod 64) * 4096 + (s2 mod 64) * 64 + s3 mod 64.
Proof.
  change utf8.mask4 with (8 - 1). change utf8.maskx with (64 - 1).
  rewrite (land_mask s0 3 8), (land_mask s1 6 64), (land_mask s2 6 64),
    (land_mask s3 6 64) by (reflexivity || divlia).
  rewrite !Z.shiftl_mul_pow2 by lia. pow2.
  rewrite (lor_shift (s0 mod 8) _ 18 262144) by (reflexivity || divlia).
  replace (s0 mod 8 * 262144 + s1 mod 64 * 4096)
    with ((s0 mod 8 * 64 + s1 mod 64) * 4096) by divlia.
  rewrite (lor_shift _ _ 12 4096) by (reflexivity || divlia).
  replace ((s0 mod 8 * 64 + s1 mod 64) * 4096 + s2 mod 64 * 64)
    with (((s0 mod 8 * 64 + s1 mod 64) * 64 + s2 mod 64) * 64) by divlia.
  rewrite (lor_shift _ _ 6 64) by (reflexivity || divlia). divlia.
Qed.

(** The continuation byte [tx | byte(x)&maskx] as a number. *)
Lemma cont_arith x :
  Z.lor utf8.tx (Z.land (byte x) utf8.maskx) = 128 + x mod 64.
Proof.
  unfold byte. change utf8.maskx with (64 - 1).
  rewrite (land_mask _ 6 64) by (reflexivity || divlia).
  change utf8.tx with (1 * 128).
  rewrite (lor_shift 1 _ 7 128) by (reflexivity || divlia). divlia.
Qed.

(** The leading byte [t | byte(x)] for a small [x]. *)
Lemma lead_arith t x :
  (t = utf8.t2 /\ 0 <= x < 32) \/ (t = utf8.t3 /\ 0 <= x < 16)
  \/ (t = utf8.t4 /\ 0 <= x < 8) ->
  Z.lor t (byte x) = t + x.
Proof.
  unfold byte. intros [[-> Hx]|[[-> Hx]|[-> Hx]]];
    rewrite (Z.mod_small x 256) by divlia.
  - change utf8.t2 with (6 * 32).
    apply (lor_shift 6 _ 5 32); [lia|reflexivity|divlia].
  - change utf8.t3 with (14 * 16).
    apply (lor_shift 14 _ 4 16); [lia|reflexivity|divlia].
  - change utf8.t4 with (30 * 8).
    apply (lor_shift 30 _ 3 8); [lia|reflexivity|divlia].
Qed.

(** Decide the comparisons of the goal from the hypotheses. *)
Ltac cmp :=
  repeat match goal with
         | |- context [Z.ltb ?a ?b] => destruct (Z.ltb_spec a b); try divlia
         | |- context [Z.leb ?a ?b] => destruct (Z.leb_spec a b); try divlia
         | |- context [Z.eqb ?a ?b] => destruct (Z.eqb_spec a b); try divlia
         end.

Ltac utf8_consts :=
  unfold utf8.validRune, utf8.RuneError, utf8.MaxRune, utf8.surrogateMin,
    utf8.surrogateMax, utf8.rune1Max, utf8.rune2Max, utf8.rune3Max,
    utf8.locb, utf8.hicb in *.

(** What [first] says about a leading byte, read backwards. *)
Lemma first_cases b :
  match utf8.first b with
  | utf8.ASCII => b < 0x80
  | utf8.Invalid => True
  | utf8.Lead sz lo hi =>
    (sz = 2%nat /\ lo = 0x80 /\ hi = 0xBF /\ 0xC2 <= b <= 0xDF)
    \/ (sz = 3%nat /\ lo = 0xA0 /\ hi = 0xBF /\ b = 0xE0)
    \/ (sz = 3%nat /\ lo = 0x80 /\ hi = 0xBF /\ 0xE1 <= b <= 0xEF /\ b <> 0xED)
    \/ (sz = 3%nat /\ lo = 0x80 /\ hi = 0x9F /\ b = 0xED)
    \/ (sz = 4%nat /\ lo = 0x90 /\ hi = 0xBF /\ b = 0xF0)
    \/ (sz = 4%nat /\ lo = 0x80 /\ hi = 0xBF /\ 0xF1 <= b <= 0xF3)
    \/ (sz = 4%nat /\ lo = 0x80 /\ hi = 0x8F /\ b = 0xF4)
  end.
Proof.
  unfold utf8.first, utf8.locb, utf8.hicb.
  cmp; auto; intuition lia.
Qed.

Lemma first_lead b sz lo hi :
  (sz = 2%nat /\ lo = 0x80 /\ hi = 0xBF /\ 0xC2 <= b <= 0xDF)
  \/ (sz = 3%nat /\ lo = 0xA0 /\ hi = 0xBF /\ b = 0xE0)
  \/ (sz = 3%nat /\ lo = 0x80 /\ hi = 0xBF /\ 0xE1 <= b <= 0xEF /\ b <> 0xED)
  \/ (sz = 3%nat /\ lo = 0x80 /\ hi = 0x9F /\ b = 0xED)
  \/ (sz = 4%nat /\ lo = 0x90 /\ hi = 0xBF /\ b = 0xF0)
  \/ (sz = 4%nat /\ lo = 0x80 /\ hi = 0xBF /\ 0xF1 <= b <= 0xF3)
  \/ (sz = 4%nat /\ lo = 0x80 /\ hi = 0x8F /\ b = 0xF4) ->
  utf8.first b = utf8.Lead sz lo hi.
Proof.
  unfold utf8.first, utf8.locb, utf8.hicb.
  intros Hb; cmp;
    repeat match goal with
           | H : _ \/ _ |- _ => destruct H
           | H : _ /\ _ |- _ => destruct H
           end; subst; try reflexivity; try lia.
Qed.

Lemma decode1 c rest :
  byteZ c < 0x80 ->
  utf8.DecodeRuneInString (String c rest) = (byteZ c, 1%nat).
Proof.
  intros Hc. unfold utf8.DecodeRuneInString, utf8.first.
  cmp. reflexivity.
Qed.

Lemma decode2 b0 b1 rest :
  0xC2 <= b0 <= 0xDF -> 0x80 <= b1 <= 0xBF ->
  utf8.DecodeRuneInString (String (chr b0) (String (chr b1) rest))
  = ((b0 mod 32) * 64 + b1 mod 64, 2%nat).
Proof.
  intros H0 H1. unfold utf8.DecodeRuneInString.
  rewrite !byteZ_chr by lia.
  rewrite (first_lead b0 2 0x80 0xBF) by (left; repeat split; lia).
  cbn [String.length Nat.ltb Nat.leb].
  cmp. cbn [orb]. rewrite dec2_arith. reflexivity.
Qed.

Lemma decode3 b0 b1 b2 lo hi rest :
  (lo = 0xA0 /\ hi = 0xBF /\ b0 = 0xE0)
  \/ (lo = 0x80 /\ hi = 0xBF /\ 0xE1 <= b0 <= 0xEF /\ b0 <> 0xED)
  \/ (lo = 0x80 /\ hi = 0x9F /\ b0 = 0xED) ->
  lo <= b1 <= hi -> 0x80 <= b2 <= 0xBF ->
  utf8.DecodeRuneInString
    (String (chr b0) (String (chr b1) (String (chr b2) rest)))
  = ((b0 mod 16) * 4096 + (b1 mod 64) * 64 + b2 mod 64, 3%nat).
Proof.
  intros H0 H1 H2. unfold utf8.DecodeRuneInString.
  rewrite !byteZ_chr by lia.
  rewrite (first_lead b0 3 lo hi) by (right; intuition lia).
  cbn [String.length Nat.ltb Nat.leb].
  unfold utf8.locb, utf8.hicb.
  cmp. cbn [orb]. rewrite dec3_arith. reflexivity.
Qed.

Lemma decode4 b0 b1 b2 b3 lo hi rest :
  (lo = 0x90 /\ hi = 0xBF /\ b0 = 0xF0)
  \/ (lo = 0x80 /\ hi = 0xBF /\ 0xF1 <= b0 <= 0xF3)
  \/ (lo = 0x80 /\ hi = 0x8F /\ b0 = 0xF4) ->
  lo <= b1 <= hi -> 0x80 <= b2 <= 0xBF -> 0x80 <= b3 <= 0xBF ->
  utf8.DecodeRuneInString
    (String (chr b0) (String (chr b1) (String (chr b2) (String (chr b3) rest))))
  = ((b0 mod 8) * 262144 + (b1 mod 64) * 4096 + (b2 mod 64) * 64 + b3 mod 64,
     4%nat).
Proof.
  intros H0 H1 H2 H3. unfold utf8.DecodeRuneInString.
  rewrite !byteZ_chr by lia.
  rewrite (first_lead b0 4 lo hi) by (do 4 right; intuition lia).
  cbn [String.length Nat.ltb Nat.leb].
  unfold utf8.locb, utf8.hicb.
  cmp. cbn [orb]. rewrite dec4_arith. reflexivity.
Qed.

(** The bytes of the encodings, as numbers. *)
Lemma enc2_bytes r :
  0x80 <= r <= 0x7FF ->
  utf8.enc2 r
  = String (chr (192 + r / 64)) (String (chr (128 + r mod 64)) EmptyString).
Proof.
  intros Hr. unfold utf8.enc2.
  rewrite cont_arith, Z.shiftr_div_pow2 by lia. pow2.
  rewrite lead_arith by (left; split; [reflexivity|divlia]).
  reflexivity.
Qed.

Lemma enc3_bytes r :
  0x800 <= r <= 0xFFFF ->
  utf8.enc3 r
  = String (chr (224 + r / 4096))
   (String (chr (128 + (r / 64) mod 64))
   (String (chr (128 + r mod 64)) EmptyString)).
Proof.
  intros Hr. unfold utf8.enc3.
  rewrite !cont_arith, !Z.shiftr_div_pow2 by lia. pow2.
  rewrite lead_arith by (right; left; split; [reflexivity|divlia]).
  reflexivity.
Qed.

Lemma enc4_bytes r :
  0x10000 <= r <= 0x10FFFF ->
  utf8.enc4 r
  = String (chr (240 + r / 262144))
   (String (chr (128 + (r / 4096) mod 64))
   (String (chr (128 + (r / 64) mod 64))
   (String (chr (128 + r mod 64)) EmptyString))).
Proof.
  intros Hr. unfold utf8.enc4.
  rewrite !cont_arith, !Z.shiftr_div_pow2 by lia. pow2.
  rewrite lead_arith by (right; right; split; [reflexivity|divlia]).
  reflexivity.
Qed.

(** Decoding reads back what [encoderune] wrote, whatever follows. *)
Lemma decode_encoderune r rest :
  utf8.validRune r ->
  utf8.DecodeRuneInString (utf8.encoderune r ++ rest)
  = (r, String.length (utf8.encoderune r)).
Proof.
  intros Hr. utf8_consts.
  unfold utf8.encoderune. rewrite (Z.mod_small r (2 ^ 32)) by lia.
  utf8_consts. cbv zeta.
  destruct (Z.leb_spec r 0x7F) as [H1|H1].
  { unfold byte. rewrite (Z.mod_small r 256) by lia.
    cbn [append String.length]. rewrite decode1; rewrite byteZ_chr by lia;
      [reflexivity|lia]. }
  destruct (Z.leb_spec r 0x7FF) as [H2|H2].
  { rewrite enc2_bytes by lia. cbn [append String.length].
    rewrite decode2 by divlia. f_equal. divlia. }
  assert (Hsur : (0x10FFFF <? r) || ((0xD800 <=? r) && (r <=? 0xDFFF)) = false).
  { cmp; reflexivity. }
  rewrite Hsur.
  destruct (Z.leb_spec r 0xFFFF) as [H3|H3].
  { rewrite enc3_bytes by lia. cbn [append String.length].
    destruct (Z.eq_dec (r / 4096) 0) as [E0|E0];
      [|destruct (Z.eq_dec (r / 4096) 13) as [E1|E1]].
    - rewrite (decode3 _ _ _ 0xA0 0xBF) by divlia. f_equal. divlia.
    - rewrite (decode3 _ _ _ 0x80 0x9F) by divlia. f_equal. divlia.
    - rewrite (decode3 _ _ _ 0x80 0xBF) by divlia. f_equal. divlia. }
  rewrite enc4_bytes by lia. cbn [append String.length].
  destruct (Z.eq_dec (r / 262144) 0) as [E0|E0];
    [|destruct (Z.eq_dec (r / 262144) 4) as [E1|E1]].
  - rewrite (decode4 _ _ _ _ 0x90 0xBF) by divlia. f_equal. divlia.
  - rewrite (decode4 _ _ _ _ 0x80 0x8F) by divlia. f_equal. divlia.
  - rewrite (decode4 _ _ _ _ 0x80 0xBF) by divlia. f_equal. divlia.
Qed.

(** Decoding yields Unicode scalar values only. *)
Lemma decode_valid s : utf8.validRune (fst (utf8.DecodeRuneInString s)).
Proof.
  assert (Herr : utf8.validRune utf8.RuneError) by (utf8_consts; lia).
  destruct s as [|c0 r0]; [exact Herr|].
  unfold utf8.DecodeRuneInString.
  pose proof (byteZ_range c0) as B0.
  pose proof (first_cases (byteZ c0)) as Hf.
  destruct (utf8.first (byteZ c0)) as [| |sz lo hi]; cbn [fst].
  - utf8_consts. lia.
  - exact Herr.
  - destruct (String.length (String c0 r0) <? sz)%nat; [exact Herr|].
    destruct r0 as [|c1 r1]; [exact Herr|].
    pose proof (byteZ_range c1) as B1.
    destruct (Z.ltb_spec (byteZ c1) lo); [exact Herr|].
    destruct (Z.ltb_spec hi (byteZ c1)); [exact Herr|]. cbn [orb].
    destruct (Nat.leb_spec sz 2).
    { cbn [fst]. rewrite dec2_arith. utf8_consts.
      destruct Hf as [Hf|Hf]; [divlia|]. intuition lia. }
    destruct r1 as [|c2 r2]; [exact Herr|].
    pose proof (byteZ_range c2) as B2.
    unfold utf8.locb, utf8.hicb.
    destruct (Z.ltb_spec (byteZ c2) 128); [exact Herr|].
    destruct (Z.ltb_spec 191 (byteZ c2)); [exact Herr|]. cbn [orb].
    destruct (Nat.leb_spec sz 3).
    { cbn [fst]. rewrite dec3_arith. utf8_consts.
      destruct Hf as [Hf|[Hf|[Hf|[Hf|Hf]]]];
        [lia|divlia|divlia|divlia|intuition lia]. }
    destruct r2 as [|c3 r3]; [exact Herr|].
    pose proof (byteZ_range c3) as B3.
    destruct (Z.ltb_spec (byteZ c3) 128); [exact Herr|].
    destruct (Z.ltb_spec 191 (byteZ c3)); [exact Herr|]. cbn [orb fst].
    rewrite dec4_arith. utf8_consts.
    destruct Hf as [Hf|[Hf|[Hf|[Hf|[Hf|[Hf|Hf]]]]]];
      [lia|lia|lia|lia|divlia|divlia|divlia].
Qed.

Lemma encoderune_nonempty r : utf8.encoderune r <> EmptyString.
Proof.
  unfold utf8.encoderune, utf8.enc2, utf8.enc3, utf8.enc4. cbv zeta.
  repeat match goal with
         | |- context [if ?b then _ else _] => destruct b
         end; discriminate.
Qed.

(** ** [[]rune(s)] and [string(runes)] *)

Lemma runes_step s :
  s <> EmptyString ->
  runes s = fst (utf8.DecodeRuneInString s)
            :: runes (drop (snd (utf8.DecodeRuneInString s)) s).
Proof.
  destruct s as [|c t]; [congruence|].
  intros _. rewrite runes_equation_2. reflexivity.
Qed.

Lemma drop_app s t : drop (String.length s) (s ++ t) = t.
Proof. induction s as [|c s IH]; [reflexivity|exact IH]. Qed.

(** The runes of an encoded list, followed by anything, are the list
    followed by the runes of the rest. *)
Lemma runes_string_of_runes rs rest :
  Forall utf8.validRune rs ->
  runes (string_of_runes rs ++ rest) = (rs ++ runes rest)%list.
Proof.
  induction 1 as [|r rs Hr Hrs IH]; [reflexivity|].
  cbn [string_of_runes List.app].
  assert (Happ : forall a b c : string, (a ++ b) ++ c = a ++ (b ++ c)).
  { induction a as [|x a IHa]; intros; cbn; [reflexivity|f_equal; apply IHa]. }
  rewrite Happ.
  rewrite runes_step.
  - rewrite decode_encoderune by assumption. cbn [fst snd].
    rewrite drop_app, IH. reflexivity.
  - pose proof (encoderune_nonempty r) as Hne.
    destruct (utf8.encoderune r); [congruence|discriminate].
Qed.

Lemma runes_valid s : Forall utf8.validRune (runes s).
Proof.
  funelim (runes s).
  - constructor.
  - constructor; [apply decode_valid|assumption].
Qed.

Lemma Forall_firstn {A : Type} (P : A -> Prop) (n : nat) (l : list A) :
  Forall P l -> Forall P (firstn n l).
Proof.
  intros Hl. rewrite <- (firstn_skipn n l) in Hl.
  apply Forall_app in Hl. exact (proj1 Hl).
Qed.

Lemma runes_dots : runes "..." = [46; 46; 46].
Proof. reflexivity. Qed.

(** ** [escapeTagValue]: the length policy *)

(** C2.  When the escaped form of the input has at most 1024 code points,
    [escapeTagValue] returns it unchanged.  When it has more, the result is
    the encoding of its first 1021 code points followed by three dots: its
    code points are those 1021 followed by the three dots, 1024 in all. *)
Theorem C2_escapeTagValue_length_policy (value : string) :
  ((List.length (runes (escaped value)) <= 1024)%nat ->
   escapeTagValue value = escaped value)
  /\ ((1024 < List.length (runes (escaped value)))%nat ->
      escapeTagValue value
      = string_of_runes (firstn 1021 (runes (escaped value))) ++ "..."
      /\ runes (escapeTagValue value)
         = (firstn 1021 (runes (escaped value)) ++ [46; 46; 46])%list
      /\ List.length (runes (escapeTagValue value)) = 1024%nat).
Proof.
  unfold escapeTagValue, stringLimit. cbv zeta.
  change (1024 - 3)%nat with 1021%nat.
  split; intros Hlen.
  - apply Nat.leb_le in Hlen. rewrite Hlen. reflexivity.
  - assert (Hgt : (List.length (runes (escaped value)) <=? 1024)%nat = false)
      by (apply Nat.leb_gt; exact Hlen).
    rewrite Hgt.
    assert (Hrunes :
      runes (string_of_runes (firstn 1021 (runes (escaped value))) ++ "...")
      = (firstn 1021 (runes (escaped value)) ++ [46; 46; 46])%list).
    { rewrite runes_string_of_runes, runes_dots; [reflexivity|].
      apply Forall_firstn, runes_valid. }
    split; [reflexivity|]. split; [exact Hrunes|].
    rewrite Hrunes, length_app, length_firstn. cbn [List.length]. lia.
Qed.

(** Both cases occur: a short value, and 1100 commas (2200 code points
    once escaped). *)
Lemma C2_escapeTagValue_length_policy_witness :
  escapeTagValue "a,b=c d" = "a\,b\=c\ d"
  /\ List.length (runes (escapeTagValue (repeatByte 1100 ","))) = 1024%nat.
Proof.
  split.
  - rewrite (proj1 (C2_escapeTagValue_length_policy "a,b=c d"));
      [reflexivity|vm_compute; lia].
  - apply (proj2 (C2_escapeTagValue_length_policy (repeatByte 1100 ","))).
    vm_compute. lia.
Defined.

(** ** [escapeTagValue]: reading the value back *)

Lemma escaped_escapeBytes value : escaped value = escapeBytes value.
Proof.
  unfold escaped. cbv zeta.
  induction value as [|c t IH]; [reflexivity|].
  cbn [strings.ReplaceAll escapeBytes]. unfold isDelimiter.
  destruct (Ascii.eqb_spec c ",") as [->|Hcomma].
  { cbn. rewrite IH. reflexivity. }
  cbn [strings.ReplaceAll orb].
  destruct (Ascii.eqb_spec c "=") as [->|Heq].
  { cbn. rewrite IH. reflexivity. }
  cbn [strings.ReplaceAll orb].
  destruct (Ascii.eqb_spec c " ") as [->|Hsp].
  { cbn. rewrite IH. reflexivity. }
  rewrite IH. reflexivity.
Qed.

(** No delimiter opens the escaped text. *)
Lemma escapeBytes_head t e t' :
  escapeBytes t = String e t' -> isDelimiter e = false.
Proof.
  destruct t as [|d t2]; [discriminate|].
  cbn [escapeBytes]. destruct (isDelimiter d) eqn:Hd; intros Heq;
    inversion Heq; subst; [reflexivity|assumption].
Qed.

Lemma unescape_escapeBytes value : spec_unescape (escapeBytes value) = value.
Proof.
  induction value as [|c t IH]; [reflexivity|].
  cbn [escapeBytes]. destruct (isDelimiter c) eqn:Hc.
  - cbn [spec_unescape]. rewrite Hc, IH. reflexivity.
  - cbn [spec_unescape].
    destruct (Ascii.eqb_spec c "\") as [->|Hbs]; [|rewrite IH; reflexivity].
    destruct (escapeBytes t) as [|e t'] eqn:Het.
    + destruct t as [|d t2]; [reflexivity|].
      cbn [escapeBytes] in Het. destruct (isDelimiter d); discriminate.
    + rewrite (escapeBytes_head _ _ _ Het), IH. reflexivity.
Qed.

Lemma split_escapeBytes value :
  spec_splitUnescaped (escapeBytes value) = [escapeBytes value].
Proof.
  induction value as [|c t IH]; [reflexivity|].
  cbn [escapeBytes]. destruct (isDelimiter c) eqn:Hc.
  - cbn [spec_splitUnescaped]. rewrite Hc, IH. reflexivity.
  - cbn [spec_splitUnescaped]. rewrite Hc.
    destruct (Ascii.eqb_spec c "\") as [->|Hbs]; [|rewrite IH; reflexivity].
    destruct (escapeBytes t) as [|e t'] eqn:Het; [reflexivity|].
    rewrite (escapeBytes_head _ _ _ Het), IH. reflexivity.
Qed.

(** C3 as amended.  The three replacements are applied in the order comma,
    equals sign, space; and whenever the escaped form has at most 1024 code
    points, reading the output back (split on unescaped delimiters, escapes
    undone) gives the one original value. *)
Theorem C3_escapeTagValue_read_back (value : string) :
  (List.length (runes (escaped value)) <= 1024)%nat ->
  escapeTagValue value
  = strings.ReplaceAll
      (strings.ReplaceAll (strings.ReplaceAll value "," "\,") "=" "\=")
      " " "\ "
  /\ spec_readTagValues (escapeTagValue value) = [value].
Proof.
  intros Hlen.
  unfold escapeTagValue, stringLimit. cbv zeta.
  apply Nat.leb_le in Hlen. rewrite Hlen.
  split; [reflexivity|].
  unfold spec_readTagValues.
  rewrite escaped_escapeBytes, split_escapeBytes.
  cbn [map]. rewrite unescape_escapeBytes. reflexivity.
Qed.

(** A value with the three delimiters and two backslashes is read back. *)
Lemma C3_escapeTagValue_read_back_witness :
  (List.length (runes (escaped "a,b=c d\e\,")) <= 1024)%nat
  /\ spec_readTagValues (escapeTagValue "a,b=c d\e\,") = ["a,b=c d\e\,"].
Proof.
  assert (Hlen : (List.length (runes (escaped "a,b=c d\e\,")) <= 1024)%nat)
    by (vm_compute; lia).
  split; [exact Hlen|].
  exact (proj2 (C3_escapeTagValue_read_back "a,b=c d\e\," Hlen)).
Defined.

(** C3 as stated fails on a long value: a comma followed by 1024 letters is
    cut to 1021 code points and three dots. *)
Lemma C3_long_value_not_read_back :
  spec_readTagValues (escapeTagValue (String "," (repeatByte 1024 "a")))
  <> [String "," (repeatByte 1024 "a")].
Proof.
  intros Heq.
  apply (f_equal (map String.length)) in Heq.
  vm_compute in Heq. discriminate Heq.
Qed.

(** ** The retrying transport *)

(** [shouldRetry] is the trigger, and [true] as well on two [nil]s. *)
Lemma shouldRetry_trigger resp err :
  shouldRetry err resp = spec_retryTrigger (resp, err) || noAnswer (resp, err).
Proof.
  unfold shouldRetry, spec_retryTrigger, noAnswer,
    http.StatusInternalServerError, http.StatusBadGateway,
    http.StatusServiceUnavailable, http.StatusGatewayTimeout.
  destruct err as [e|]; [destruct resp; reflexivity|].
  destruct resp as [r|]; [|reflexivity].
  cbn [existsb].
  destruct (http.StatusCode r =? 500), (http.StatusCode r =? 502),
    (http.StatusCode r =? 503), (http.StatusCode r =? 504); reflexivity.
Qed.

(** A result that is not to be retried is returned as it is. *)
Lemma retryLoop_returns transport resp err retries effects :
  shouldRetry err resp = false ->
  retryLoop transport resp err retries effects
  = mkRoundTripRun resp err retries effects.
Proof.
  intros Hno. rewrite retryLoop_equation_1.
  destruct (inspect (shouldRetry err resp && (retries <? retryCount)%nat))
    as [[|] Hb]; cbn.
  - rewrite Hno in Hb. discriminate.
  - reflexivity.
Qed.

(** The loop started at a call that has been made: where it stops. *)
Lemma retryLoop_stops transport resp err retries effects :
  (retries <= retryCount)%nat ->
  (resp, err) = transport retries ->
  let run := retryLoop transport resp err retries effects in
  (retries <= run_retries run <= retryCount)%nat
  /\ (run_resp run, run_err run) = transport (run_retries run)
  /\ (forall k, (retries <= k < run_retries run)%nat ->
                shouldRetry (snd (transport k)) (fst (transport k)) = true)
  /\ ((run_retries run < retryCount)%nat ->
      shouldRetry (run_err run) (run_resp run) = false).
Proof.
  cbv zeta.
  apply (retryLoop_elim
    (fun transport resp err retries effects run =>
       (retries <= retryCount)%nat ->
       (resp, err) = transport retries ->
       (retries <= run_retries run <= retryCount)%nat
       /\ (run_resp run, run_err run) = transport (run_retries run)
       /\ (forall k, (retries <= k < run_retries run)%nat ->
             shouldRetry (snd (transport k)) (fst (transport k)) = true)
       /\ ((run_retries run < retryCount)%nat ->
           shouldRetry (run_err run) (run_resp run) = false)));
    clear transport resp err retries effects.
  - intros transport resp err retries Hcond effects IH _ Hle Hres.
    apply andb_true_iff in Hcond. destruct Hcond as [Hretry Hlt].
    apply Nat.ltb_lt in Hlt.
    destruct IH as (Hbounds & Hlast & Hbefore & Hstop);
      [lia|symmetry; apply surjective_pairing|].
    repeat split; try lia; try assumption.
    intros k Hk.
    destruct (Nat.eq_dec k retries) as [->|Hne].
    + rewrite <- Hres. exact Hretry.
    + apply Hbefore. lia.
  - intros transport resp err retries Hcond effects _ Hle Hres.
    cbn [run_retries run_resp run_err].
    repeat split; try lia; try assumption.
    intros Hlt. apply andb_false_iff in Hcond.
    destruct Hcond as [Hno|Hge]; [exact Hno|].
    apply Nat.ltb_ge in Hge. lia.
Qed.

(** [RoundTrip] in terms of [shouldRetry]: at most 3 retries, the last
    call's result returned, and a call followed by another exactly when
    [shouldRetry] holds of its result and fewer than 3 retries were made. *)
Lemma RoundTrip_exact (transport : RoundTripper) :
  let run := RoundTrip transport in
  (run_retries run <= 3)%nat
  /\ (run_resp run, run_err run) = transport (run_retries run)
  /\ (forall k, (k <= run_retries run)%nat ->
        ((k < run_retries run)%nat
         <-> shouldRetry (snd (transport k)) (fst (transport k)) = true
             /\ (k < 3)%nat)).
Proof.
  cbv zeta. unfold RoundTrip.
  pose proof (retryLoop_stops transport (fst (transport 0%nat))
                (snd (transport 0%nat)) 0 []) as Hloop.
  cbv zeta in Hloop. unfold retryCount in Hloop.
  destruct Hloop as (Hbounds & Hlast & Hbefore & Hstop);
    [lia|symmetry; apply surjective_pairing|].
  set (run := retryLoop transport (fst (transport 0%nat))
                (snd (transport 0%nat)) 0 []) in *.
  split; [lia|]. split; [exact Hlast|].
  intros k Hk. split.
  - intros Hlt. split; [apply Hbefore|]; lia.
  - intros [Htrue Hk3].
    destruct (Nat.eq_dec k (run_retries run)) as [->|Hne]; [|lia].
    exfalso. rewrite <- Hlast in Htrue. cbn [fst snd] in Htrue.
    rewrite Hstop in Htrue by exact Hk3. discriminate.
Qed.

Lemma shouldRetry_pair (res : option http.Response * option error) :
  shouldRetry (snd res) (fst res) = spec_retryTrigger res || noAnswer res.
Proof. destruct res as [resp err]. apply shouldRetry_trigger. Qed.

(** [RoundTrip] over any transport: at most 3 calls after the first, the
    last call's result returned; a call is followed by another exactly
    when it returned an error, or a status 500, 502, 503 or 504, or two
    [nil]s, and fewer than 3 retries were made. *)
Lemma RoundTrip_trigger (transport : RoundTripper) :
  let run := RoundTrip transport in
  (run_retries run <= 3)%nat
  /\ (run_resp run, run_err run) = transport (run_retries run)
  /\ (forall k, (k <= run_retries run)%nat ->
        ((k < run_retries run)%nat
         <-> (spec_retryTrigger (transport k) = true
              \/ noAnswer (transport k) = true)
             /\ (k < 3)%nat)).
Proof.
  cbv zeta.
  destruct (RoundTrip_exact transport) as (Hbound & Hlast & Hexact).
  split; [exact Hbound|]. split; [exact Hlast|].
  intros k Hk. rewrite (Hexact k Hk), shouldRetry_pair, orb_true_iff.
  reflexivity.
Qed.

(** C4.  Over a transport that keeps the contract of [http.RoundTripper]
    (each call returns a response or an error, as [http.Transport], the
    only transport [main] wraps, does), [RoundTrip] makes at most 3 calls
    after the first and returns what the last call returned.  A call is
    followed by another exactly when it returned an error or a response
    with status 500, 502, 503 or 504, and fewer than 3 retries were made.
    So a first response with any other status (a 4xx included) is returned
    at once, with no retry and no effect. *)
Theorem C4_RoundTrip_retries (transport : RoundTripper) :
  answers transport ->
  let run := RoundTrip transport in
  (run_retries run <= 3)%nat
  /\ (run_resp run, run_err run) = transport (run_retries run)
  /\ (forall k, (k <= run_retries run)%nat ->
        ((k < run_retries run)%nat
         <-> spec_retryTrigger (transport k) = true /\ (k < 3)%nat))
  /\ (forall r, transport 0%nat = (Some r, None) ->
      spec_retryTrigger (transport 0%nat) = false ->
      run = mkRoundTripRun (Some r) None 0 []).
Proof.
  intros Hanswers. cbv zeta.
  destruct (RoundTrip_exact transport) as (Hbound & Hlast & Hexact).
  split; [exact Hbound|]. split; [exact Hlast|]. split.
  - intros k Hk.
    rewrite (Hexact k Hk), shouldRetry_pair, (Hanswers k), orb_false_r.
    reflexivity.
  - intros r Hfirst Hfalse. unfold RoundTrip. rewrite Hfirst. cbn [fst snd].
    apply retryLoop_returns.
    rewrite Hfirst in Hfalse. rewrite shouldRetry_trigger, Hfalse.
    reflexivity.
Qed.

(** The example of the spec: after 503 twice the third attempt's 200 is
    returned, with no error, after two retries. *)
Lemma C4_RoundTrip_retries_witness :
  answers Sample.twice503
  /\ RoundTrip Sample.twice503
     = mkRoundTripRun (Some (http.mkResponse 200 "200 OK")) None 2
         [Sleep 1; LogPreviousFailed "503 Service Unavailable"; LogRetry 1;
          Sleep 2; LogPreviousFailed "503 Service Unavailable"; LogRetry 2]
  /\ (run_resp (RoundTrip Sample.twice503),
      run_err (RoundTrip Sample.twice503))
     = Sample.twice503 (run_retries (RoundTrip Sample.twice503))
  /\ (forall k, (k <= run_retries (RoundTrip Sample.twice503))%nat ->
        ((k < run_retries (RoundTrip Sample.twice503))%nat
         <-> spec_retryTrigger (Sample.twice503 k) = true /\ (k < 3)%nat)).
Proof.
  assert (Hanswers : answers Sample.twice503)
    by (intros [|[|k]]; reflexivity).
  split; [exact Hanswers|]. split; [reflexivity|].
  destruct (C4_RoundTrip_retries Sample.twice503 Hanswers)
    as (_ & Hlast & Hexact & _).
  split; [exact Hlast|exact Hexact].
Defined.

(** The contract is needed for the trigger of the spec: a call that
    returns two [nil]s is followed by a retry (lines 94-96), though it
    returned neither an error nor one of the four statuses. *)
Lemma nil_result_is_retried :
  ~ (forall k, (k <= run_retries (RoundTrip Sample.nilThen200))%nat ->
       ((k < run_retries (RoundTrip Sample.nilThen200))%nat
        <-> spec_retryTrigger (Sample.nilThen200 k) = true /\ (k < 3)%nat)).
Proof.
  intros Hexact.
  assert (Hretries : run_retries (RoundTrip Sample.nilThen200) = 1%nat)
    by reflexivity.
  rewrite Hretries in Hexact.
  destruct (proj1 (Hexact 0%nat ltac:(lia)) ltac:(lia)) as [Htrigger _].
  discriminate Htrigger.
Qed.

(** ** Rendering *)

Section RenderingFacts.

Context `{Externals}.

Lemma append_assoc (a b c : string) : (a ++ b) ++ c = a ++ (b ++ c).
Proof. induction a as [|x a IH]; cbn; [reflexivity|f_equal; exact IH]. Qed.

Lemma append_empty_r (a : string) : a ++ EmptyString = a.
Proof. induction a as [|x a IH]; cbn; [reflexivity|f_equal; exact IH]. Qed.

Lemma append_eq_empty (a b : string) :
  a ++ b = EmptyString -> a = EmptyString /\ b = EmptyString.
Proof. destruct a; cbn; [auto|discriminate]. Qed.

Lemma concat_app (xs ys : list string) :
  String.concat EmptyString (xs ++ ys)
  = String.concat EmptyString xs ++ String.concat EmptyString ys.
Proof.
  induction xs as [|x xs IH]; [reflexivity|].
  cbn [List.app]. destruct xs as [|x' xs].
  - cbn [List.app String.concat]. destruct ys as [|y ys].
    + cbn. symmetry. apply append_empty_r.
    + cbn [String.concat]. reflexivity.
  - cbn [List.app String.concat] in *. rewrite IH.
    cbn [append]. rewrite !append_assoc. reflexivity.
Qed.

Lemma renderEvents_records entry events :
  renderEvents entry events = String.concat EmptyString (records entry events).
Proof.
  induction events as [|event rest IH]; [reflexivity|].
  cbn [renderEvents records].
  destruct (renderEvent entry event) as [l|why]; [|exact IH].
  rewrite IH. change (l :: records entry rest) with ([l] ++ records entry rest)%list.
  rewrite concat_app. reflexivity.
Qed.

(** Every record ends in a line feed, so none is empty. *)
Lemma renderEvent_nonempty entry event l :
  renderEvent entry event = Line l -> l <> EmptyString.
Proof.
  unfold renderEvent, renderWebTabCurrent, renderAppEditor,
    renderCurrentWindow, renderStopWatch, renderAfkStatus.
  intros Hl Hempty. subst l.
  repeat match type of Hl with
         | (if ?b then _ else _) = _ => destruct b
         | match ?x with _ => _ end = _ => destruct x
         end;
    try discriminate;
    inversion Hl as [Hline];
    repeat match type of Hline with
           | _ ++ _ = EmptyString =>
             apply append_eq_empty in Hline; destruct Hline as [_ Hline]
           end;
    discriminate.
Qed.

Lemma records_nonempty entry events :
  Forall (fun l => l <> EmptyString) (records entry events).
Proof.
  induction events as [|event rest IH]; [constructor|].
  cbn [records]. destruct (renderEvent entry event) as [l|why] eqn:Hr;
    [|exact IH].
  constructor; [eapply renderEvent_nonempty; eassumption|exact IH].
Qed.

Lemma harvestedRecords_nonempty sources :
  Forall (fun l => l <> EmptyString) (harvestedRecords sources).
Proof.
  induction sources as [|[entry r] rest IH]; [constructor|].
  cbn [harvestedRecords].
  destruct r as [err|err|code body [events|err]]; try exact IH.
  destruct (code =? http.StatusOK); [|exact IH].
  apply Forall_app. split; [apply records_nonempty|exact IH].
Qed.

(** What the tasks leave when run one after another, from any state. *)
Lemma harvest_from sources st :
  let st' := fold_left (fun st source => bucketTask (fst source) (snd source) st)
                       sources st in
  payload st'
  = payload st ++ String.concat EmptyString (harvestedRecords sources)
  /\ apiErrors st'
     = Nat.iter (List.length (filter sourceFails sources))
                (fun n => int64 (n + 1)) (apiErrors st).
Proof.
  cbv zeta. revert st.
  induction sources as [|[entry r] rest IH]; intros st.
  - cbn. split; [symmetry; apply append_empty_r|reflexivity].
  - cbn [fold_left fst snd].
    destruct (IH (bucketTask entry r st)) as [Hp He].
    rewrite Hp, He. clear IH Hp He.
    assert (Hiter : forall k x,
              Nat.iter k (fun n => int64 (n + 1)) (int64 (x + 1))
              = Nat.iter (S k) (fun n => int64 (n + 1)) x).
    { intros k x.
      exact (eq_sym (Nat.iter_succ_r k Z (fun n => int64 (n + 1)) x)). }
    unfold bucketTask, sourceFails. cbn [filter snd harvestedRecords].
    destruct r as [err|err|code body [events|err]];
      cbn [handleApiError payload apiErrors negb orb List.length];
      try (split; [reflexivity|apply Hiter]).
    + destruct (code =? http.StatusOK);
        cbn [negb orb handleApiError payload apiErrors List.length].
      * rewrite concat_app, renderEvents_records, append_assoc.
        split; reflexivity.
      * split; [reflexivity|apply Hiter].
    + destruct (code =? http.StatusOK);
        cbn [negb orb handleApiError payload apiErrors List.length];
        (split; [reflexivity|apply Hiter]).
Qed.

(** The payload is the text of the harvested records. *)
Lemma harvest_payload sources :
  payload (harvest sources)
  = String.concat EmptyString (harvestedRecords sources).
Proof.
  unfold harvest.
  exact (proj1 (harvest_from sources (mkHarvest EmptyString 0 []))).
Qed.

Lemma int64_succ z : int64 (int64 z + 1) = int64 (z + 1).
Proof.
  unfold int64.
  change (2 ^ 63) with 9223372036854775808.
  change (2 ^ 64) with 18446744073709551616.
  Z.to_euclidean_division_equations. lia.
Qed.

(** The counter is the number of failed sources, in [int64]. *)
Lemma harvest_apiErrors sources :
  apiErrors (harvest sources)
  = int64 (Z.of_nat (List.length (filter sourceFails sources))).
Proof.
  unfold harvest.
  rewrite (proj2 (harvest_from sources (mkHarvest EmptyString 0 []))).
  cbn [apiErrors].
  generalize (List.length (filter sourceFails sources)). intros k.
  induction k as [|k IH]; [reflexivity|].
  rewrite Nat.iter_succ, IH, int64_succ.
  f_equal. lia.
Qed.

End RenderingFacts.

(** ** Delivery *)

Lemma int64_small z : - 2 ^ 63 <= z < 2 ^ 63 -> int64 z = z.
Proof.
  unfold int64.
  change (2 ^ 63) with 9223372036854775808.
  change (2 ^ 64) with 18446744073709551616.
  intros Hz. Z.to_euclidean_division_equations. lia.
Qed.

Lemma length_zero_empty (s : string) :
  (String.length s =? 0)%nat = true <-> s = EmptyString.
Proof. destruct s; cbn; split; intros; congruence. Qed.

Lemma concat_nonempty (ls : list string) :
  Forall (fun l => l <> EmptyString) ls ->
  String.concat EmptyString ls = EmptyString -> ls = [].
Proof.
  intros Hne Hcat. destruct ls as [|l ls]; [reflexivity|].
  exfalso. inversion Hne as [|? ? Hl _]; subst.
  destruct ls as [|l' ls]; cbn [String.concat] in Hcat.
  - contradiction.
  - cbn [append] in Hcat. apply append_eq_empty in Hcat.
    destruct Hcat as [Hcat _]. contradiction.
Qed.

(** The payload is empty exactly when no record was rendered. *)
Lemma payload_empty_iff `{Externals} sources :
  payload (harvest sources) = EmptyString <-> harvestedRecords sources = [].
Proof.
  rewrite harvest_payload. split.
  - apply concat_nonempty, harvestedRecords_nonempty.
  - intros ->. reflexivity.
Qed.

(** C5.  When no record was rendered the payload is empty, and the run
    ends in the fatal [No data to send], whatever the counter holds: the
    test of the payload comes first and does not read the counter. *)
Theorem C5_no_records_is_fatal `{Externals}
    (sources : list (Bucket * EventsResponse)) (upload : string -> Delivery) :
  harvestedRecords sources = [] ->
  payload (harvest sources) = EmptyString
  /\ (forall apiErrors : Z,
        deliver (payload (harvest sources)) apiErrors upload
        = Fatal (fmt.Sprintln ["No data to send"]))
  /\ run sources upload = Fatal (fmt.Sprintln ["No data to send"]).
Proof.
  intros Hnone. apply payload_empty_iff in Hnone.
  split; [exact Hnone|]. unfold run. cbv zeta. rewrite Hnone.
  split; [intros apiErrors|]; reflexivity.
Qed.

(** What [deliver] does once a response has been read. *)
Lemma deliver_responded (payload : string) (apiErrors : Z)
    (upload : string -> Delivery) (code : Z) (body : string) :
  payload <> EmptyString ->
  upload payload = Responded code body ->
  deliver payload apiErrors upload
  = if negb (code =? 204) then Fatal ("Error sending data: " ++ body)
    else if 0 <? apiErrors then Fatal ("Errors: " ++ fmt.d apiErrors ++ fmt.nl)
    else Returned.
Proof.
  intros Hpayload Hupload. unfold deliver.
  destruct (String.length payload =? 0)%nat eqn:Hlen.
  { apply length_zero_empty in Hlen. contradiction. }
  rewrite Hupload. reflexivity.
Qed.

(** C6.  With a payload to send and a response read in full: any status
    other than 204 ends the run in the fatal [Error sending data: ] followed
    by the response body; status 204 alone passes on to the counter. *)
Theorem C6_only_204_is_success (payload : string) (apiErrors : Z)
    (upload : string -> Delivery) (code : Z) (body : string) :
  payload <> EmptyString ->
  upload payload = Responded code body ->
  (code <> 204 ->
   deliver payload apiErrors upload = Fatal ("Error sending data: " ++ body))
  /\ (code = 204 ->
      deliver payload apiErrors upload
      = if 0 <? apiErrors then Fatal ("Errors: " ++ fmt.d apiErrors ++ fmt.nl)
        else Returned).
Proof.
  intros Hpayload Hupload.
  rewrite (deliver_responded _ _ _ _ _ Hpayload Hupload).
  split; intros Hcode.
  - apply Z.eqb_neq in Hcode. rewrite Hcode. reflexivity.
  - subst code. reflexivity.
Qed.

(** C7.  After an upload answered with 204, with fewer than [2^63] sources
    failed (the counter is an [int64]): a nonzero number of failed sources
    ends the run in the fatal [Errors: ] followed by that number, and the
    run returns normally exactly when no source failed. *)
Theorem C7_failures_reported_after_upload `{Externals}
    (sources : list (Bucket * EventsResponse)) (upload : string -> Delivery)
    (body : string) :
  let failed := List.length (filter sourceFails sources) in
  Z.of_nat failed < 2 ^ 63 ->
  payload (harvest sources) <> EmptyString ->
  upload (payload (harvest sources)) = Responded 204 body ->
  (failed <> 0%nat ->
   run sources upload
   = Fatal ("Errors: " ++ fmt.d (Z.of_nat failed) ++ fmt.nl))
  /\ (run sources upload = Returned <-> failed = 0%nat).
Proof.
  cbv zeta. intros Hrange Hpayload Hupload.
  unfold run. cbv zeta.
  rewrite (deliver_responded _ _ _ _ _ Hpayload Hupload).
  cbn [Z.eqb Pos.eqb negb].
  rewrite harvest_apiErrors, int64_small by lia.
  destruct (Z.ltb_spec 0 (Z.of_nat (List.length (filter sourceFails sources))))
    as [Hpos|Hzero].
  - split; [reflexivity|]. split; [discriminate|lia].
  - split; [lia|]. split; [lia|reflexivity].
Qed.

(** ** The records of browser tabs and of AFK status *)

Lemma renderEvent_webTab `{Externals} entry event :
  Bucket_Type entry = webTabCurrentType ->
  renderEvent entry event = renderWebTabCurrent entry event.
Proof. intros Htype. unfold renderEvent. rewrite Htype. reflexivity. Qed.

Lemma renderEvent_afk `{Externals} entry event :
  Bucket_Type entry = afkType ->
  renderEvent entry event = renderAfkStatus entry event.
Proof. intros Htype. unfold renderEvent. rewrite Htype. reflexivity. Qed.

Lemma eqb_empty (s : string) :
  String.eqb s EmptyString = true <-> s = EmptyString.
Proof. apply String.eqb_eq. Qed.

(** C8.  For an event of a [web.tab.current] bucket whose payload decodes:
    when [url.Parse] fails the event is skipped and the loop goes on with
    the next one; otherwise the record carries the fields [duration],
    [audible] and [incognito], preceded by a tag [url] exactly when the
    parsed host is not empty, and that tag holds the host alone: neither
    the scheme, the path nor the query of the URL reaches the record. *)
Theorem C8_webTab_url_tag `{Externals} (entry : Bucket) (event : Event)
    (data : WebTabCurrent) :
  Bucket_Type entry = webTabCurrentType ->
  Unmarshal_WebTabCurrent (Event_Data event) = Some data ->
  match url_Parse (WebTabCurrent_URL data) with
  | None =>
    renderEvent entry event = Skip URLParseError
    /\ forall rest,
         renderEvents entry (event :: rest) = renderEvents entry rest
  | Some u =>
    (url.Host u = EmptyString ->
     renderEvent entry event
     = Line (Bucket_Type entry
             ++ ",client=" ++ Bucket_Client entry
             ++ ",hostname=" ++ escapeTagValue (Bucket_Hostname entry)
             ++ " duration=" ++ Sprintf_3f (Event_Duration event)
             ++ ",audible=" ++ fmt.t (WebTabCurrent_Audible data)
             ++ ",incognito=" ++ fmt.t (WebTabCurrent_Incognito data)
             ++ " " ++ fmt.d (Event_Timestamp_Unix event)
             ++ fmt.nl))
    /\ (url.Host u <> EmptyString ->
        renderEvent entry event
        = Line (Bucket_Type entry
                ++ ",client=" ++ Bucket_Client entry
                ++ ",hostname=" ++ escapeTagValue (Bucket_Hostname entry)
                ++ ",url=" ++ url.Host u
                ++ " duration=" ++ Sprintf_3f (Event_Duration event)
                ++ ",audible=" ++ fmt.t (WebTabCurrent_Audible data)
                ++ ",incognito=" ++ fmt.t (WebTabCurrent_Incognito data)
                ++ " " ++ fmt.d (Event_Timestamp_Unix event)
                ++ fmt.nl))
  end.
Proof.
  intros Htype Hdata.
  destruct (url_Parse (WebTabCurrent_URL data)) as [u|] eqn:Hparse.
  - rewrite (renderEvent_webTab _ _ Htype).
    unfold renderWebTabCurrent. rewrite Hdata, Hparse.
    split; intros Hhost.
    + rewrite Hhost. reflexivity.
    + destruct (String.eqb (url.Host u) EmptyString) eqn:Heq.
      * apply eqb_empty in Heq. contradiction.
      * reflexivity.
  - assert (Hskip : renderEvent entry event = Skip URLParseError).
    { rewrite (renderEvent_webTab _ _ Htype).
      unfold renderWebTabCurrent. rewrite Hdata, Hparse. reflexivity. }
    split; [exact Hskip|].
    intros rest. cbn [renderEvents]. rewrite Hskip. reflexivity.
Qed.

(** C10.  For an event of an [afkstatus] bucket whose payload decodes, the
    record ends in the field [status]: the status text as decoded, byte
    for byte, between two double quotes, then a space, the timestamp and
    a line feed.  The text is not passed through [escapeTagValue], nor
    changed in any other way. *)
Theorem C10_afk_status_verbatim `{Externals} (entry : Bucket) (event : Event)
    (data : AfkStatus) :
  Bucket_Type entry = afkType ->
  Unmarshal_AfkStatus (Event_Data event) = Some data ->
  renderEvent entry event
  = Line (Bucket_Type entry
          ++ ",client=" ++ Bucket_Client entry
          ++ ",hostname=" ++ escapeTagValue (Bucket_Hostname entry)
          ++ " duration=" ++ Sprintf_3f (Event_Duration event)
          ++ ",status=" ++ fmt.quote ++ AfkStatus_Status data ++ fmt.quote
          ++ " " ++ fmt.d (Event_Timestamp_Unix event)
          ++ fmt.nl).
Proof.
  intros Htype Hdata.
  rewrite (renderEvent_afk _ _ Htype).
  unfold renderAfkStatus. rewrite Hdata. reflexivity.
Qed.

(** ** Examples

    The theorems above at the sample sources of module [Sample]. *)

(** The end-to-end example of the spec (section 8). *)
Example sample_window_record :
  harvestedRecords [Sample.window]
  = ["currentwindow,client=aw-watcher-window,hostname=desktop,app=firefox duration=25.523 1741974028"
     ++ fmt.nl].
Proof. reflexivity. Qed.

(** A bucket of an unknown type and a bucket whose request failed: no
    record, one failure counted, and the run ends in [No data to send]. *)
Lemma C5_no_records_is_fatal_witness :
  harvestedRecords [Sample.unknown; Sample.failed] = []
  /\ apiErrors (harvest [Sample.unknown; Sample.failed]) = 1
  /\ run [Sample.unknown; Sample.failed] (fun _ => Responded 204 EmptyString)
     = Fatal (fmt.Sprintln ["No data to send"]).
Proof.
  assert (Hnone : harvestedRecords [Sample.unknown; Sample.failed] = [])
    by reflexivity.
  split; [exact Hnone|]. split; [reflexivity|].
  exact (proj2 (proj2 (C5_no_records_is_fatal
                         [Sample.unknown; Sample.failed]
                         (fun _ => Responded 204 EmptyString) Hnone))).
Defined.

(** A status 200 on the write is fatal and reports the body. *)
Lemma C6_only_204_is_success_witness :
  "m,t=v f=1 1" <> EmptyString
  /\ 200 <> 204
  /\ deliver "m,t=v f=1 1" 0 (fun _ => Responded 200 "partial write")
     = Fatal "Error sending data: partial write".
Proof.
  assert (Hpayload : "m,t=v f=1 1" <> EmptyString) by discriminate.
  assert (Hcode : 200 <> 204) by lia.
  split; [exact Hpayload|]. split; [exact Hcode|].
  exact (proj1 (C6_only_204_is_success "m,t=v f=1 1" 0
                  (fun _ => Responded 200 "partial write") 200
                  "partial write" Hpayload eq_refl) Hcode).
Defined.

(** One bucket rendered, one failed, the upload answered 204: the run
    ends in [Errors: 1]. *)
Lemma C7_failures_reported_after_upload_witness :
  Z.of_nat (List.length (filter sourceFails [Sample.window; Sample.failed]))
  < 2 ^ 63
  /\ payload (harvest [Sample.window; Sample.failed]) <> EmptyString
  /\ run [Sample.window; Sample.failed] (fun _ => Responded 204 EmptyString)
     = Fatal ("Errors: 1" ++ fmt.nl).
Proof.
  assert (Hrange :
    Z.of_nat (List.length (filter sourceFails [Sample.window; Sample.failed]))
    < 2 ^ 63) by (vm_compute; reflexivity).
  assert (Hpayload : payload (harvest [Sample.window; Sample.failed])
                     <> EmptyString) by (vm_compute; discriminate).
  split; [exact Hrange|]. split; [exact Hpayload|].
  refine (proj1 (C7_failures_reported_after_upload
                   [Sample.window; Sample.failed]
                   (fun _ => Responded 204 EmptyString) EmptyString
                   Hrange Hpayload eq_refl) _).
  vm_compute. discriminate.
Defined.

(** A tab on a host (the tag holds the host, not the path or the query),
    a tab with no host (no tag), and a URL that does not parse (skipped). *)
Lemma C8_webTab_url_tag_witness :
  renderEvent Sample.web (Sample.tabOn "https://example.org/a/b?x=1")
  = Line ("web.tab.current,client=aw-client-web,hostname=desktop,url=example.org duration=25.003,audible=true,incognito=false 1741974028"
          ++ fmt.nl)
  /\ renderEvent Sample.web (Sample.tabOn "about:blank")
     = Line ("web.tab.current,client=aw-client-web,hostname=desktop duration=25.003,audible=true,incognito=false 1741974028"
             ++ fmt.nl)
  /\ renderEvent Sample.web (Sample.tabOn (String (chr 127) "https://example.org/"))
     = Skip URLParseError.
Proof.
  split; [|split].
  - refine (proj2 (C8_webTab_url_tag Sample.web
                     (Sample.tabOn "https://example.org/a/b?x=1") _
                     eq_refl eq_refl) _).
    discriminate.
  - exact (proj1 (C8_webTab_url_tag Sample.web (Sample.tabOn "about:blank") _
                    eq_refl eq_refl) eq_refl).
  - exact (proj1 (C8_webTab_url_tag Sample.web
                    (Sample.tabOn (String (chr 127) "https://example.org/")) _
                    eq_refl eq_refl)).
Defined.

(** A status with a double quote, a backslash, a space and a comma stands
    unchanged between the quotes of the field. *)
Lemma C10_afk_status_verbatim_witness :
  renderEvent (fst Sample.failed) Sample.afkEvent
  = Line ("afkstatus,client=aw-watcher-afk,hostname=desktop duration=1.500,status="
          ++ fmt.quote ++ "not" ++ fmt.quote ++ "afk\ a,b" ++ fmt.quote
          ++ " 1741974028" ++ fmt.nl).
Proof.
  exact (C10_afk_status_verbatim (fst Sample.failed) Sample.afkEvent
           (mkAfkStatus Sample.oddStatus) eq_refl eq_refl).
Defined.

(** ** Tag values that bypass [escapeTagValue] *)

(** C1 at a failing input.  The hostname and the application name are
    escaped, the client name is written as it is: its space ends the tag
    set early.  Likewise the host of a tab's URL is written as it is, with
    its comma and equals sign, where [escapeTagValue] would have put
    backslashes. *)
Theorem C1_client_and_url_not_escaped :
  renderEvent Sample.spaced Sample.spacedEvent
  = Line ("currentwindow,client=my client,hostname=desk\ top,app=fire\ fox duration=25.523 1741974028"
          ++ fmt.nl)
  /\ escapeTagValue "my client" = "my\ client"
  /\ renderEvent Sample.web (Sample.tabOn "https://a,b=c/x")
     = Line ("web.tab.current,client=aw-client-web,hostname=desktop,url=a,b=c duration=25.003,audible=true,incognito=false 1741974028"
             ++ fmt.nl)
  /\ escapeTagValue "a,b=c" = "a\,b\=c".
Proof. repeat split; reflexivity. Qed.

(** ** The shared buffer *)

(** With the schedule in which each task finishes before the next starts,
    the buffer holds both records. *)
Lemma race_serial (l1 l2 : string) :
  race.buffer (race.exec [0; 0; 1; 1]%nat (race.start [[l1]; [l2]]))
  = l1 ++ l2.
Proof.
  cbn. unfold race.writeAt. f_equal.
  induction l1 as [|c b IH]; cbn; [reflexivity|f_equal; exact IH].
Qed.

(** C9 at a failing input: two tasks with one record each.  After one step
    of each, both are inside [WriteString] (no mutual exclusion); when
    both have finished, the buffer holds the second record alone: the
    first one was overwritten. *)
Theorem C9_appends_not_exclusive (l1 l2 : string) :
  race.exclusive (race.exec [0; 1]%nat (race.start [[l1]; [l2]])) = false
  /\ race.buffer (race.exec [0; 1; 0; 1]%nat (race.start [[l1]; [l2]])) = l2
  /\ forallb race.finished
       (race.tasks (race.exec [0; 1; 0; 1]%nat (race.start [[l1]; [l2]])))
     = true.
Proof.
  repeat split; try reflexivity.
  cbn. unfold race.writeAt. destruct l1; reflexivity.
Qed.

Lemma runes_escapeTagValue_cut value :
  (1024 < List.length (runes (escaped value)))%nat ->
  runes (escapeTagValue value)
  = (firstn 1021 (runes (escaped value)) ++ [46; 46; 46])%list.
Proof.
  intros Hlen. unfold escapeTagValue, stringLimit. cbv zeta.
  change (1024 - 3)%nat with 1021%nat.
  assert (Hgt : (List.length (runes (escaped value)) <=? 1024)%nat = false)
    by (apply Nat.leb_gt; exact Hlen).
  rewrite Hgt, runes_string_of_runes, runes_dots; [reflexivity|].
  apply Forall_firstn, runes_valid.
Qed.

Lemma escapeTagValue_short value :
  (List.length (runes (escaped value)) <= 1024)%nat ->
  escapeTagValue value = escaped value.
Proof.
  intros Hlen. unfold escapeTagValue, stringLimit. cbv zeta.
  apply Nat.leb_le in Hlen. rewrite Hlen. reflexivity.
Qed.

(** X1.  Whatever the value, the result of [escapeTagValue] has at most
    1024 code points. *)
Theorem X1_escapeTagValue_cap (value : string) :
  (List.length (runes (escapeTagValue value)) <= 1024)%nat.
Proof.
  destruct (Nat.le_gt_cases (List.length (runes (escaped value))) 1024)
    as [Hle|Hgt].
  - rewrite escapeTagValue_short by exact Hle. exact Hle.
  - rewrite runes_escapeTagValue_cut by exact Hgt.
    rewrite length_app, length_firstn. cbn [List.length]. lia.
Qed.

Lemma escapeBytes_clean value :
  countDelimiters value = 0%nat -> escapeBytes value = value.
Proof.
  induction value as [|c t IH]; [reflexivity|].
  cbn [countDelimiters escapeBytes].
  destruct (isDelimiter c); [discriminate|].
  intros Hzero. rewrite IH by exact Hzero. reflexivity.
Qed.

(** X2.  A value with no comma, equals sign or space and at most 1024 code
    points is returned as it is. *)
Theorem X2_escapeTagValue_clean (value : string) :
  countDelimiters value = 0%nat ->
  (List.length (runes value) <= 1024)%nat ->
  escapeTagValue value = value.
Proof.
  intros Hclean Hlen.
  assert (Hesc : escaped value = value)
    by (rewrite escaped_escapeBytes; apply escapeBytes_clean; exact Hclean).
  rewrite escapeTagValue_short; rewrite Hesc; [reflexivity|exact Hlen].
Qed.

Lemma X2_escapeTagValue_clean_witness :
  countDelimiters "aw-watcher-window_désktop" = 0%nat
  /\ (List.length (runes "aw-watcher-window_désktop") <= 1024)%nat
  /\ escapeTagValue "aw-watcher-window_désktop" = "aw-watcher-window_désktop".
Proof.
  assert (Hclean : countDelimiters "aw-watcher-window_désktop" = 0%nat)
    by reflexivity.
  assert (Hlen : (List.length (runes "aw-watcher-window_désktop") <= 1024)%nat)
    by (vm_compute; lia).
  split; [exact Hclean|]. split; [exact Hlen|].
  exact (X2_escapeTagValue_clean _ Hclean Hlen).
Defined.

(** Replacing one delimiter after the others, in any order. *)
Ltac replace_order :=
  let c := fresh "c" in
  let t := fresh "t" in
  let IH := fresh "IH" in
  let H1 := fresh "H" in
  let H2 := fresh "H" in
  let H3 := fresh "H" in
  intros value; rewrite escaped_escapeBytes;
  induction value as [|c t IH]; [reflexivity|];
  cbn [escapeBytes]; unfold isDelimiter;
  destruct (Ascii.eqb c ",") eqn:H1;
    [apply Ascii.eqb_eq in H1; subst c; cbn; rewrite IH; reflexivity|];
  destruct (Ascii.eqb c "=") eqn:H2;
    [apply Ascii.eqb_eq in H2; subst c; cbn; rewrite IH; reflexivity|];
  destruct (Ascii.eqb c " ") eqn:H3;
    [apply Ascii.eqb_eq in H3; subst c; cbn; rewrite IH; reflexivity|];
  repeat (cbn [strings.ReplaceAll]; rewrite ?H1, ?H2, ?H3);
  cbn [orb]; rewrite IH; reflexivity.

Lemma replace_order_ces : forall value,
  strings.ReplaceAll (strings.ReplaceAll (strings.ReplaceAll value "," "\,")
                        " " "\ ") "=" "\="
  = escaped value.
Proof. replace_order. Qed.

Lemma replace_order_ecs : forall value,
  strings.ReplaceAll (strings.ReplaceAll (strings.ReplaceAll value "=" "\=")
                        "," "\,") " " "\ "
  = escaped value.
Proof. replace_order. Qed.

Lemma replace_order_esc : forall value,
  strings.ReplaceAll (strings.ReplaceAll (strings.ReplaceAll value "=" "\=")
                        " " "\ ") "," "\,"
  = escaped value.
Proof. replace_order. Qed.

Lemma replace_order_sce : forall value,
  strings.ReplaceAll (strings.ReplaceAll (strings.ReplaceAll value " " "\ ")
                        "," "\,") "=" "\="
  = escaped value.
Proof. replace_order. Qed.

Lemma replace_order_sec : forall value,
  strings.ReplaceAll (strings.ReplaceAll (strings.ReplaceAll value " " "\ ")
                        "=" "\=") "," "\,"
  = escaped value.
Proof. replace_order. Qed.

(** X3.  The three replacements of lines 141-143 give the same text in
    every order: none of them writes or removes a byte another one looks
    for. *)
Theorem X3_replacements_commute (value : string) :
  strings.ReplaceAll (strings.ReplaceAll (strings.ReplaceAll value "," "\,")
                        " " "\ ") "=" "\="
  = escaped value
  /\ strings.ReplaceAll (strings.ReplaceAll (strings.ReplaceAll value "=" "\=")
                           "," "\,") " " "\ "
     = escaped value
  /\ strings.ReplaceAll (strings.ReplaceAll (strings.ReplaceAll value "=" "\=")
                           " " "\ ") "," "\,"
     = escaped value
  /\ strings.ReplaceAll (strings.ReplaceAll (strings.ReplaceAll value " " "\ ")
                           "," "\,") "=" "\="
     = escaped value
  /\ strings.ReplaceAll (strings.ReplaceAll (strings.ReplaceAll value " " "\ ")
                           "=" "\=") "," "\,"
     = escaped value.
Proof.
  repeat split;
    [apply replace_order_ces|apply replace_order_ecs|apply replace_order_esc
    |apply replace_order_sce|apply replace_order_sec].
Qed.

Lemma byteZ_inj c d : byteZ c = byteZ d -> c = d.
Proof.
  intros Heq. rewrite <- (chr_byteZ c), <- (chr_byteZ d), Heq. reflexivity.
Qed.

Lemma eqb_byteZ c d : Ascii.eqb c d = (byteZ c =? byteZ d).
Proof.
  destruct (Ascii.eqb_spec c d) as [->|Hne].
  - symmetry. apply Z.eqb_refl.
  - symmetry. apply Z.eqb_neq. intros Heq. apply Hne, byteZ_inj, Heq.
Qed.

Lemma isDelimiter_rune c : isDelimiter c = isDelimiterRune (byteZ c).
Proof. unfold isDelimiter, isDelimiterRune. rewrite !eqb_byteZ. reflexivity. Qed.

Lemma backslash_rune c : Ascii.eqb c "\" = (byteZ c =? 92).
Proof. rewrite eqb_byteZ. reflexivity. Qed.

Lemma isDelimiterRune_high r : 0x80 <= r -> isDelimiterRune r = false.
Proof. intros Hr. unfold isDelimiterRune. cmp; try reflexivity. Qed.

(** A byte outside ASCII is neither a delimiter nor a backslash. *)
Lemma escapedFrom_high p c t :
  0x80 <= byteZ c ->
  delimitersEscapedFrom p (String c t) = delimitersEscapedFrom false t.
Proof.
  intros Hc. cbn [delimitersEscapedFrom].
  rewrite isDelimiter_rune, isDelimiterRune_high, backslash_rune by exact Hc.
  cmp; try reflexivity.
Qed.

(** Decoding at a byte outside ASCII: the rune is outside ASCII, at least
    one byte is consumed, and every consumed byte is outside ASCII. *)
Lemma decode_high c t p :
  0x80 <= byteZ c ->
  0x80 <= fst (utf8.DecodeRuneInString (String c t))
  /\ (1 <= snd (utf8.DecodeRuneInString (String c t)))%nat
  /\ delimitersEscapedFrom p (String c t)
     = delimitersEscapedFrom false
         (drop (snd (utf8.DecodeRuneInString (String c t))) (String c t)).
Proof.
  intros Hc.
  assert (Hone : 0x80 <= utf8.RuneError /\ (1 <= 1)%nat
                 /\ delimitersEscapedFrom p (String c t)
                    = delimitersEscapedFrom false (drop 1 (String c t))).
  { split; [utf8_consts; lia|]. split; [lia|].
    cbn [drop]. apply escapedFrom_high, Hc. }
  unfold utf8.DecodeRuneInString.
  pose proof (byteZ_range c) as B0.
  pose proof (first_cases (byteZ c)) as Hf.
  destruct (utf8.first (byteZ c)) as [| |sz lo hi]; cbn [fst snd];
    [lia|exact Hone|].
  destruct (String.length (String c t) <? sz)%nat; [exact Hone|].
  destruct t as [|c1 t1]; [exact Hone|].
  pose proof (byteZ_range c1) as B1.
  destruct (Z.ltb_spec (byteZ c1) lo); [exact Hone|].
  destruct (Z.ltb_spec hi (byteZ c1)); [exact Hone|]. cbn [orb].
  assert (H1 : 0x80 <= byteZ c1) by intuition lia.
  destruct (Nat.leb_spec sz 2).
  { cbn [fst snd drop]. rewrite dec2_arith.
    split; [destruct Hf as [Hf|Hf]; [divlia|intuition lia]|].
    split; [lia|].
    rewrite !escapedFrom_high by assumption. reflexivity. }
  destruct t1 as [|c2 t2]; [exact Hone|].
  pose proof (byteZ_range c2) as B2.
  unfold utf8.locb, utf8.hicb.
  destruct (Z.ltb_spec (byteZ c2) 128); [exact Hone|].
  destruct (Z.ltb_spec 191 (byteZ c2)); [exact Hone|]. cbn [orb].
  destruct (Nat.leb_spec sz 3).
  { cbn [fst snd drop]. rewrite dec3_arith.
    split; [destruct Hf as [Hf|[Hf|[Hf|[Hf|Hf]]]];
            [lia|divlia|divlia|divlia|intuition lia]|].
    split; [lia|].
    rewrite !escapedFrom_high by assumption. reflexivity. }
  destruct t2 as [|c3 t3]; [exact Hone|].
  pose proof (byteZ_range c3) as B3.
  destruct (Z.ltb_spec (byteZ c3) 128); [exact Hone|].
  destruct (Z.ltb_spec 191 (byteZ c3)); [exact Hone|]. cbn [orb fst snd drop].
  rewrite dec4_arith.
  split; [destruct Hf as [Hf|[Hf|[Hf|[Hf|[Hf|[Hf|Hf]]]]]];
          [lia|lia|lia|lia|divlia|divlia|divlia]|].
  split; [lia|].
  rewrite !escapedFrom_high by assumption. reflexivity.
Qed.

Lemma drop_length n s :
  (String.length (drop n s) <= String.length s - n)%nat.
Proof.
  revert s. induction n as [|n IH]; intros [|c t]; cbn; try lia.
  apply IH.
Qed.

(** From bytes to code points. *)
Lemma runes_escaped n : forall s p,
  (String.length s <= n)%nat ->
  delimitersEscapedFrom p s = true ->
  runesEscapedFrom p (runes s) = true.
Proof.
  induction n as [|n IH]; intros s p Hlen Hs.
  - destruct s; [reflexivity|cbn in Hlen; lia].
  - destruct s as [|c t]; [reflexivity|].
    cbn [String.length] in Hlen.
    rewrite runes_step by discriminate.
    cbn [runesEscapedFrom].
    destruct (Z.lt_ge_cases (byteZ c) 0x80) as [Hlow|Hhigh].
    + rewrite decode1 by exact Hlow. cbn [fst snd drop].
      cbn [delimitersEscapedFrom] in Hs.
      rewrite <- isDelimiter_rune, <- backslash_rune.
      apply andb_true_iff in Hs. destruct Hs as [Hhead Htail].
      rewrite Hhead. cbn [andb]. apply IH; [lia|exact Htail].
    + destruct (decode_high c t p) as (Hr & Hk & Hdrop); [lia|].
      rewrite isDelimiterRune_high by exact Hr.
      replace (fst (utf8.DecodeRuneInString (String c t)) =? 92) with false
        by (symmetry; apply Z.eqb_neq; lia).
      cbn [andb]. apply IH.
      * pose proof (drop_length (snd (utf8.DecodeRuneInString (String c t)))
                                (String c t)) as Hd.
        cbn [String.length] in Hd. lia.
      * rewrite <- Hdrop. exact Hs.
Qed.

Lemma runesEscaped_firstn n : forall rs p,
  runesEscapedFrom p rs = true -> runesEscapedFrom p (firstn n rs) = true.
Proof.
  induction n as [|n IH]; intros rs p Hrs; [reflexivity|].
  destruct rs as [|r rs]; [reflexivity|].
  cbn [firstn runesEscapedFrom] in *.
  apply andb_true_iff in Hrs. destruct Hrs as [Hhead Htail].
  rewrite Hhead. cbn [andb]. apply IH, Htail.
Qed.

(** The encoding of a rune outside ASCII holds no ASCII byte. *)
Lemma encoderune_high r rest p :
  utf8.validRune r -> 0x80 <= r ->
  delimitersEscapedFrom p (utf8.encoderune r ++ rest)
  = delimitersEscapedFrom false rest.
Proof.
  intros Hr Hhigh. utf8_consts.
  unfold utf8.encoderune. rewrite (Z.mod_small r (2 ^ 32)) by lia.
  utf8_consts. cbv zeta.
  destruct (Z.leb_spec r 0x7F) as [H1|H1]; [lia|].
  destruct (Z.leb_spec r 0x7FF) as [H2|H2].
  { rewrite enc2_bytes by lia. cbn [append].
    rewrite !escapedFrom_high by (rewrite byteZ_chr; divlia). reflexivity. }
  assert (Hsur : (0x10FFFF <? r) || ((0xD800 <=? r) && (r <=? 0xDFFF)) = false).
  { cmp; reflexivity. }
  rewrite Hsur.
  destruct (Z.leb_spec r 0xFFFF) as [H3|H3].
  { rewrite enc3_bytes by lia. cbn [append].
    rewrite !escapedFrom_high by (rewrite byteZ_chr; divlia). reflexivity. }
  rewrite enc4_bytes by lia. cbn [append].
  rewrite !escapedFrom_high by (rewrite byteZ_chr; divlia). reflexivity.
Qed.

Lemma encoderune_low r :
  0 <= r < 0x80 -> utf8.encoderune r = String (chr r) EmptyString.
Proof.
  intros Hr. unfold utf8.encoderune, byte.
  rewrite (Z.mod_small r (2 ^ 32)), (Z.mod_small r 256) by lia.
  utf8_consts. cmp; try reflexivity.
Qed.

(** From code points back to bytes. *)
Lemma string_of_runes_escaped rs : forall p tail,
  Forall utf8.validRune rs ->
  (forall q, delimitersEscapedFrom q tail = true) ->
  runesEscapedFrom p rs = true ->
  delimitersEscapedFrom p (string_of_runes rs ++ tail) = true.
Proof.
  induction rs as [|r rs IH]; intros p tail Hvalid Htail Hrs.
  - apply Htail.
  - inversion Hvalid as [|? ? Hr Hrest]; subst.
    cbn [string_of_runes runesEscapedFrom] in *.
    rewrite append_assoc.
    apply andb_true_iff in Hrs. destruct Hrs as [Hhead Hnext].
    destruct (Z.lt_ge_cases r 0x80) as [Hlow|Hhigh].
    + assert (Hr0 : 0 <= r < 0x80) by (utf8_consts; lia).
      rewrite encoderune_low by exact Hr0. cbn [append delimitersEscapedFrom].
      rewrite isDelimiter_rune, backslash_rune, byteZ_chr by lia.
      rewrite Hhead. cbn [andb]. apply IH; assumption.
    + rewrite encoderune_high by assumption.
      apply IH; try assumption.
      replace (r =? 92) with false in Hnext
        by (symmetry; apply Z.eqb_neq; lia).
      exact Hnext.
Qed.

Lemma escapeBytes_escaped value :
  forall p, delimitersEscapedFrom p (escapeBytes value) = true.
Proof.
  induction value as [|c t IH]; intros p; [reflexivity|].
  cbn [escapeBytes]. destruct (isDelimiter c) eqn:Hc.
  - cbn [delimitersEscapedFrom]. rewrite Hc.
    change (isDelimiter "\") with false.
    change (Ascii.eqb "\" "\") with true. cbn [andb]. apply IH.
  - cbn [delimitersEscapedFrom]. rewrite Hc. cbn [andb]. apply IH.
Qed.

(** Text whose delimiters are all escaped is one piece for the reader. *)
Lemma split_escaped n : forall s,
  (String.length s <= n)%nat ->
  delimitersEscapedFrom false s = true ->
  spec_splitUnescaped s = [s].
Proof.
  induction n as [|n IH]; intros s Hlen Hs.
  - destruct s; [reflexivity|cbn in Hlen; lia].
  - destruct s as [|c t]; [reflexivity|].
    cbn [String.length] in Hlen.
    cbn [delimitersEscapedFrom] in Hs.
    apply andb_true_iff in Hs. destruct Hs as [Hhead Htail].
    cbn [spec_splitUnescaped].
    destruct (Ascii.eqb c "\") eqn:Hbs.
    + destruct t as [|e t']; [reflexivity|].
      cbn [delimitersEscapedFrom String.length] in *.
      apply andb_true_iff in Htail. destruct Htail as [_ Htail'].
      destruct (isDelimiter e) eqn:He.
      * assert (Hne : Ascii.eqb e "\" = false).
        { rewrite isDelimiter_rune in He. rewrite backslash_rune.
          unfold isDelimiterRune in He. revert He. cmp; discriminate. }
        rewrite Hne in Htail'. rewrite (IH t') by (lia || exact Htail').
        reflexivity.
      * rewrite (IH (String e t')); [reflexivity|cbn; lia|].
        cbn [delimitersEscapedFrom]. rewrite He. exact Htail'.
    + destruct (isDelimiter c); [discriminate|].
      rewrite (IH t) by (lia || exact Htail). reflexivity.
Qed.

(** X4.  In the result of [escapeTagValue], cut or not, every comma, equals
    sign and space stands right after a backslash: read back, the result
    is one tag value, never split. *)
Theorem X4_escapeTagValue_delimiters_escaped (value : string) :
  delimitersEscaped (escapeTagValue value) = true
  /\ spec_splitUnescaped (escapeTagValue value) = [escapeTagValue value].
Proof.
  assert (Hesc : delimitersEscaped (escapeTagValue value) = true).
  { unfold delimitersEscaped, escapeTagValue. cbv zeta.
    destruct (List.length (runes (escaped value)) <=? stringLimit)%nat.
    - rewrite escaped_escapeBytes. apply escapeBytes_escaped.
    - apply string_of_runes_escaped.
      + apply Forall_firstn, runes_valid.
      + intros q. reflexivity.
      + apply runesEscaped_firstn.
        apply (runes_escaped (String.length (escaped value))); [lia|].
        rewrite escaped_escapeBytes. apply escapeBytes_escaped. }
  split; [exact Hesc|].
  apply (split_escaped (String.length (escapeTagValue value))); [lia|exact Hesc].
Qed.

(** The width of a decoded rune is within the string. *)
Lemma decode_width s :
  (snd (utf8.DecodeRuneInString s) <= String.length s)%nat.
Proof.
  unfold utf8.DecodeRuneInString.
  repeat match goal with
         | |- context [match ?x with _ => _ end] => destruct x
         end; cbn [snd String.length]; lia.
Qed.

Lemma drop_app_le n : forall s t,
  (n <= String.length s)%nat -> drop n (s ++ t) = drop n s ++ t.
Proof.
  induction n as [|n IH]; intros s t Hn; [reflexivity|].
  destruct s as [|c s]; cbn in Hn; [lia|].
  cbn [append drop]. apply IH. lia.
Qed.

(** Decoding at a byte outside ASCII does not look past an ASCII byte. *)
Lemma decode_before_ascii a0 a' c b :
  0x80 <= byteZ a0 -> byteZ c < 0x80 ->
  utf8.DecodeRuneInString (String a0 (a' ++ String c b))
  = utf8.DecodeRuneInString (String a0 a').
Proof.
  intros H0 Hc.
  unfold utf8.DecodeRuneInString.
  pose proof (first_cases (byteZ a0)) as Hf.
  destruct (utf8.first (byteZ a0)) as [| |sz lo hi]; [reflexivity|reflexivity|].
  assert (Hlo : 0x80 <= lo) by intuition lia.
  assert (Hsz : sz = 2%nat \/ sz = 3%nat \/ sz = 4%nat) by intuition lia.
  clear Hf. unfold utf8.locb, utf8.hicb.
  destruct a' as [|c1 [|c2 [|c3 a3]]];
    destruct Hsz as [-> | [-> | ->]];
    cbn [append String.length Nat.ltb Nat.leb];
    cmp; try reflexivity;
    repeat match goal with
           | |- context [(?x <=? ?y)%nat] => destruct (Nat.leb_spec x y); try lia
           end; try reflexivity.
Qed.

(** Decoding resumes at an ASCII byte: the runes before it and the runes
    from it on do not depend on each other. *)
Lemma runes_app_ascii n : forall a c b,
  (String.length a <= n)%nat -> byteZ c < 0x80 ->
  runes (a ++ String c b) = (runes a ++ runes (String c b))%list.
Proof.
  induction n as [|n IH]; intros a c b Hlen Hc.
  - destruct a; [reflexivity|cbn in Hlen; lia].
  - destruct a as [|a0 a']; [reflexivity|].
    cbn [String.length] in Hlen. cbn [append].
    rewrite (runes_step (String a0 (a' ++ String c b))) by discriminate.
    rewrite (runes_step (String a0 a')) by discriminate.
    destruct (Z.lt_ge_cases (byteZ a0) 0x80) as [Hlow|Hhigh].
    + rewrite !decode1 by exact Hlow. cbn [fst snd drop List.app].
      f_equal. apply IH; [lia|exact Hc].
    + rewrite decode_before_ascii by (exact Hhigh || exact Hc).
      destruct (decode_high a0 a' false) as (_ & Hk & _); [lia|].
      pose proof (decode_width (String a0 a')) as Hw.
      change (String a0 (a' ++ String c b)) with (String a0 a' ++ String c b).
      rewrite drop_app_le by exact Hw.
      cbn [List.app]. f_equal. apply IH; [|exact Hc].
      pose proof (drop_length (snd (utf8.DecodeRuneInString (String a0 a')))
                              (String a0 a')) as Hd.
      cbn [String.length] in Hd. lia.
Qed.

Lemma isDelimiter_low c : isDelimiter c = true -> byteZ c < 0x80.
Proof.
  rewrite isDelimiter_rune. unfold isDelimiterRune. cmp; discriminate.
Qed.

Lemma allHigh_snoc h c :
  allHigh h = true -> 0x80 <= byteZ c ->
  allHigh (h ++ String c EmptyString) = true.
Proof.
  induction h as [|x h IH]; cbn [append allHigh]; intros Hh Hc.
  - apply andb_true_iff. split; [apply Z.leb_le; exact Hc|reflexivity].
  - apply andb_true_iff in Hh. destruct Hh as [Hx Hh].
    rewrite Hx. cbn [andb]. apply IH; assumption.
Qed.

(** Each backslash written by the replacements is one more code point,
    also behind bytes that are not valid UTF-8. *)
Lemma runes_escapeBytes_count value : forall h,
  allHigh h = true ->
  List.length (runes (h ++ escapeBytes value))
  = (List.length (runes (h ++ value)) + countDelimiters value)%nat.
Proof.
  induction value as [|c t IH]; intros h Hh.
  - cbn [escapeBytes countDelimiters]. lia.
  - cbn [escapeBytes countDelimiters].
    destruct (isDelimiter c) eqn:Hc.
    + pose proof (isDelimiter_low c Hc) as Hlow.
      rewrite (runes_app_ascii (String.length h) h "\") by (lia || reflexivity).
      rewrite (runes_app_ascii (String.length h) h c) by (lia || exact Hlow).
      rewrite !length_app.
      rewrite (runes_step (String "\" _)) by discriminate.
      rewrite decode1 by reflexivity. cbn [fst snd drop List.length].
      rewrite !(runes_step (String c _)) by discriminate.
      rewrite !decode1 by exact Hlow. cbn [fst snd drop List.length].
      specialize (IH EmptyString eq_refl). cbn [append] in IH. lia.
    + destruct (Z.lt_ge_cases (byteZ c) 0x80) as [Hlow|Hhigh].
      * rewrite !(runes_app_ascii (String.length h) h c) by (lia || exact Hlow).
        rewrite !length_app.
        rewrite !(runes_step (String c _)) by discriminate.
        rewrite !decode1 by exact Hlow. cbn [fst snd drop List.length].
        specialize (IH EmptyString eq_refl). cbn [append] in IH. lia.
      * specialize (IH (h ++ String c EmptyString) (allHigh_snoc h c Hh Hhigh)).
        rewrite !append_assoc in IH. cbn [append] in IH. exact IH.
Qed.

Lemma runes_escaped_count value :
  List.length (runes (escaped value))
  = (List.length (runes value) + countDelimiters value)%nat.
Proof.
  rewrite escaped_escapeBytes.
  exact (runes_escapeBytes_count value EmptyString eq_refl).
Qed.

(** X5.  The escaped form has one code point more than the value for each
    of its delimiters; so a value is cut exactly when its code points and
    its delimiters number more than 1024 together. *)
Theorem X5_escapeTagValue_cut_criterion (value : string) :
  List.length (runes (escaped value))
  = (List.length (runes value) + countDelimiters value)%nat
  /\ ((List.length (runes value) + countDelimiters value <= 1024)%nat ->
      escapeTagValue value = escaped value)
  /\ ((1024 < List.length (runes value) + countDelimiters value)%nat ->
      runes (escapeTagValue value)
      = (firstn 1021 (runes (escaped value)) ++ [46; 46; 46])%list).
Proof.
  pose proof (runes_escaped_count value) as Hcount.
  split; [exact Hcount|]. split; intros Hlen.
  - apply escapeTagValue_short. lia.
  - apply runes_escapeTagValue_cut. lia.
Qed.

(** ** The retrying transport: backoff, exhaustion, the request body *)

Lemma retryLoop_effects transport resp err retries effects :
  (resp, err) = transport retries ->
  let run := retryLoop transport resp err retries effects in
  run_effects run
  = (effects
     ++ flat_map (retryEffects transport)
                 (seq retries (run_retries run - retries)))%list.
Proof.
  cbv zeta.
  apply (retryLoop_elim
    (fun transport resp err retries effects run =>
       (resp, err) = transport retries ->
       run_effects run
       = (effects
          ++ flat_map (retryEffects transport)
                      (seq retries (run_retries run - retries)))%list));
    clear transport resp err retries effects.
  - intros transport resp err retries Hcond effects IH _ Hres.
    rewrite IH by (symmetry; apply surjective_pairing).
    pose proof (retryLoop_stops transport (fst (transport (S retries)))
                  (snd (transport (S retries))) (S retries)
                  (effects ++ Sleep (2 ^ Z.of_nat retries)
                     :: logPrevious resp ++ [LogRetry (retries + 1)])%list)
      as Hstops.
    cbv zeta in Hstops.
    apply andb_true_iff in Hcond. destruct Hcond as [_ Hlt].
    apply Nat.ltb_lt in Hlt.
    destruct Hstops as ((Hge & _) & _);
      [lia|symmetry; apply surjective_pairing|].
    set (final := run_retries _) in *.
    replace (final - retries)%nat with (S (final - S retries)) by lia.
    cbn [seq flat_map]. unfold retryEffects at 2.
    rewrite <- Hres. cbn [fst].
    repeat rewrite <- app_assoc. cbn [List.app].
    repeat rewrite <- app_assoc. reflexivity.
  - intros transport resp err retries Hcond effects _ Hres.
    cbn [run_effects run_retries].
    rewrite Nat.sub_diag. cbn [seq flat_map]. rewrite app_nil_r. reflexivity.
Qed.

Lemma secondsSlept_app a b :
  secondsSlept (a ++ b) = secondsSlept a + secondsSlept b.
Proof.
  induction a as [|e a IH]; [reflexivity|].
  cbn [List.app secondsSlept]. destruct e; rewrite IH; lia.
Qed.

Lemma secondsSlept_logPrevious resp : secondsSlept (logPrevious resp) = 0.
Proof.
  unfold logPrevious. destruct resp as [r|]; [|reflexivity].
  destruct (String.eqb (http.Status r) EmptyString); reflexivity.
Qed.

Lemma secondsSlept_retries transport n :
  secondsSlept (flat_map (retryEffects transport) (seq 0 n))
  = 2 ^ Z.of_nat n - 1.
Proof.
  induction n as [|n IH]; [reflexivity|].
  rewrite seq_S, flat_map_app, secondsSlept_app, IH.
  cbn [flat_map Nat.add]. rewrite app_nil_r. unfold retryEffects.
  cbn [secondsSlept]. rewrite secondsSlept_app, secondsSlept_logPrevious.
  cbn [secondsSlept].
  rewrite Nat2Z.inj_succ, Z.pow_succ_r by lia. lia.
Qed.

(** X6.  The effects of [RoundTrip] are, for each retry in turn, a sleep of
    1, 2, then 4 seconds (two to the number of retries made so far), the
    log line of the previous status when the previous call returned a
    response with a status text, and the log line numbering the retry from
    1; the sleeps add up to [2^retries - 1] seconds, 7 at most. *)
Theorem X6_RoundTrip_backoff (transport : RoundTripper) :
  let run := RoundTrip transport in
  run_effects run
  = flat_map (retryEffects transport) (seq 0 (run_retries run))
  /\ secondsSlept (run_effects run) = 2 ^ Z.of_nat (run_retries run) - 1
  /\ secondsSlept (run_effects run) <= 7.
Proof.
  cbv zeta.
  assert (Heff : run_effects (RoundTrip transport)
                 = flat_map (retryEffects transport)
                            (seq 0 (run_retries (RoundTrip transport)))).
  { unfold RoundTrip.
    pose proof (retryLoop_effects transport (fst (transport 0%nat))
                  (snd (transport 0%nat)) 0 []) as H.
    cbv zeta in H. rewrite H by (symmetry; apply surjective_pairing).
    rewrite Nat.sub_0_r. reflexivity. }
  destruct (RoundTrip_exact transport) as (Hbound & _).
  split; [exact Heff|]. rewrite Heff, secondsSlept_retries.
  split; [reflexivity|].
  assert (Hpow : 2 ^ Z.of_nat (run_retries (RoundTrip transport)) <= 2 ^ 3)
    by (apply Z.pow_le_mono_r; lia).
  change (2 ^ 3) with 8 in Hpow. lia.
Qed.

(** X7.  When the first call and the three retries all return a result to
    retry, [RoundTrip] stops after the third retry and returns what the
    fourth call returned, as it is. *)
Theorem X7_RoundTrip_exhausted (transport : RoundTripper) :
  (forall k, (k <= 3)%nat ->
     shouldRetry (snd (transport k)) (fst (transport k)) = true) ->
  run_retries (RoundTrip transport) = 3%nat
  /\ (run_resp (RoundTrip transport), run_err (RoundTrip transport))
     = transport 3%nat.
Proof.
  intros Hall.
  destruct (RoundTrip_exact transport) as (Hbound & Hlast & Hexact).
  assert (Hthree : run_retries (RoundTrip transport) = 3%nat).
  { destruct (Nat.eq_dec (run_retries (RoundTrip transport)) 3) as [|Hne];
      [assumption|].
    pose proof (proj2 (Hexact (run_retries (RoundTrip transport)) (le_n _)))
      as Hmore.
    assert (Hlt : (run_retries (RoundTrip transport)
                   < run_retries (RoundTrip transport))%nat).
    { apply Hmore. split; [apply Hall|]; lia. }
    lia. }
  split; [exact Hthree|]. rewrite Hlast, Hthree. reflexivity.
Qed.

Lemma X7_RoundTrip_exhausted_witness :
  run_retries (RoundTrip always503) = 3%nat
  /\ (run_resp (RoundTrip always503), run_err (RoundTrip always503))
     = (Some (http.mkResponse 503 "503 Service Unavailable"), None).
Proof.
  exact (X7_RoundTrip_exhausted always503 (fun k _ => eq_refl)).
Defined.

Lemma retryLoop_agree (t1 t2 : RoundTripper) n :
  forall resp err retries effects,
  (retries + n = retryCount)%nat ->
  (forall k, (k <= retryCount)%nat -> t1 k = t2 k) ->
  retryLoop t1 resp err retries effects
  = retryLoop t2 resp err retries effects.
Proof.
  induction n as [|n IH]; intros resp err retries effects Hn Hsame.
  - rewrite !retryLoop_equation_1.
    destruct (inspect (shouldRetry err resp && (retries <? retryCount)%nat))
      as [[|] Hb]; cbn; [|reflexivity].
    apply andb_true_iff in Hb. destruct Hb as [_ Hlt].
    apply Nat.ltb_lt in Hlt. lia.
  - rewrite !retryLoop_equation_1.
    destruct (inspect (shouldRetry err resp && (retries <? retryCount)%nat))
      as [[|] Hb]; cbn; [|reflexivity].
    rewrite (Hsame (S retries)) by lia.
    apply IH; [lia|exact Hsame].
Qed.

(** X8.  [RoundTrip] calls the wrapped transport four times at most: two
    transports that agree on their first four answers give the same
    result, the same number of retries and the same effects. *)
Theorem X8_RoundTrip_four_calls (t1 t2 : RoundTripper) :
  (forall k, (k <= 3)%nat -> t1 k = t2 k) ->
  RoundTrip t1 = RoundTrip t2.
Proof.
  intros Hsame. unfold RoundTrip.
  rewrite (Hsame 0%nat) by lia.
  apply (retryLoop_agree t1 t2 3); [reflexivity|exact Hsame].
Qed.

Lemma X8_RoundTrip_four_calls_witness :
  thenOK always503 4%nat <> always503 4%nat
  /\ RoundTrip (thenOK always503) = RoundTrip always503.
Proof.
  split; [discriminate|].
  apply X8_RoundTrip_four_calls.
  intros k Hk. unfold thenOK.
  apply Nat.leb_le in Hk. rewrite Hk. reflexivity.
Defined.

Lemma resetBody_after body bodyBytes n :
  resetBody (afterCall (resetBody body bodyBytes) n) bodyBytes
  = resetBody body bodyBytes.
Proof. destruct body; reflexivity. Qed.

Lemma retryLoopBody_spec transport body bodyBytes :
  forall resp err reqBody retries effects handed,
  resetBody reqBody bodyBytes = resetBody body bodyBytes ->
  let run := retryLoopBody transport bodyBytes resp err reqBody
                           retries effects handed in
  let plain := retryLoop
                 (fun k => fst (transport k (resetBody body bodyBytes)))
                 resp err retries effects in
  body_resp run = run_resp plain
  /\ body_err run = run_err plain
  /\ body_retries run = run_retries plain
  /\ body_effects run = run_effects plain
  /\ body_handed run
     = (handed ++ repeat (resetBody body bodyBytes)
                         (run_retries plain - retries))%list.
Proof.
  cbv zeta. intros resp err reqBody retries effects handed.
  apply (retryLoopBody_elim
    (fun transport bodyBytes resp err reqBody retries effects handed run =>
       forall body,
       resetBody reqBody bodyBytes = resetBody body bodyBytes ->
       let plain := retryLoop
                      (fun k => fst (transport k (resetBody body bodyBytes)))
                      resp err retries effects in
       body_resp run = run_resp plain
       /\ body_err run = run_err plain
       /\ body_retries run = run_retries plain
       /\ body_effects run = run_effects plain
       /\ body_handed run
          = (handed ++ repeat (resetBody body bodyBytes)
                              (run_retries plain - retries))%list));
    clear.
  - intros transport bodyBytes resp err reqBody retries Hcond effects handed
      IH _ body Hreset. cbv zeta.
    rewrite (retryLoop_equation_1 _ resp err retries effects).
    destruct (inspect (shouldRetry err resp && (retries <? retryCount)%nat))
      as [[|] Hb]; [|congruence]. cbn.
    specialize (IH body). rewrite Hreset in IH.
    rewrite resetBody_after in IH. specialize (IH eq_refl). cbv zeta in IH.
    rewrite Hreset.
    destruct IH as (H1 & H2 & H3 & H4 & H5).
    repeat split; try assumption.
    etransitivity; [exact H5|]. clear H1 H2 H3 H4 H5.
    set (plain := retryLoop _ _ _ (S retries) _) in *.
    pose proof (retryLoop_stops
                  (fun k => fst (transport k (resetBody body bodyBytes)))
                  (fst (fst (transport (S retries) (resetBody body bodyBytes))))
                  (snd (fst (transport (S retries) (resetBody body bodyBytes))))
                  (S retries)
                  (effects ++ [Sleep (2 ^ Z.of_nat retries)]
                     ++ logPrevious resp ++ [LogRetry (retries + 1)])%list)
      as Hstops.
    cbv zeta in Hstops. fold plain in Hstops.
    apply andb_true_iff in Hcond. destruct Hcond as [_ Hlt].
    apply Nat.ltb_lt in Hlt.
    destruct Hstops as ((Hge & _) & _);
      [lia|symmetry; apply surjective_pairing|].
    replace (run_retries plain - retries)%nat
      with (S (run_retries plain - S retries)) by lia.
    cbn [repeat]. rewrite <- app_assoc. reflexivity.
  - intros transport bodyBytes resp err reqBody retries Hcond effects handed
      _ body Hreset. cbv zeta.
    rewrite (retryLoop_equation_1 _ resp err retries effects).
    destruct (inspect (shouldRetry err resp && (retries <? retryCount)%nat))
      as [[|] Hb]; [congruence|]. cbn.
    rewrite Nat.sub_diag. cbn [repeat]. rewrite app_nil_r.
    repeat split; reflexivity.
Qed.

(** X9.  Whatever the wrapped transport reads of the request body, every
    call, the first and each retry, is handed the whole body again (and
    [nil] when the request has none); result, retries and effects are
    those of [RoundTrip] over the answers given to the whole body. *)
Theorem X9_RoundTrip_body_replayed (transport : BodyTripper)
    (body : option string) :
  let run := RoundTripBody transport body in
  let plain := RoundTrip (fun k => fst (transport k body)) in
  body_handed run = repeat body (S (body_retries run))
  /\ body_resp run = run_resp plain
  /\ body_err run = run_err plain
  /\ body_retries run = run_retries plain
  /\ body_effects run = run_effects plain.
Proof.
  cbv zeta. unfold RoundTripBody, RoundTrip. cbv zeta.
  set (bodyBytes := match body with Some s => s | None => EmptyString end).
  assert (Hbody : resetBody body bodyBytes = body)
    by (subst bodyBytes; destruct body; reflexivity).
  pose proof (retryLoopBody_spec transport body bodyBytes
                (fst (fst (transport 0%nat (resetBody body bodyBytes))))
                (snd (fst (transport 0%nat (resetBody body bodyBytes))))
                (afterCall (resetBody body bodyBytes)
                   (snd (transport 0%nat (resetBody body bodyBytes))))
                0%nat [] [resetBody body bodyBytes]
                (resetBody_after body bodyBytes _)) as Hspec.
  cbv zeta in Hspec. rewrite !Hbody in Hspec. rewrite !Hbody.
  destruct Hspec as (H1 & H2 & H3 & H4 & H5).
  repeat split; try assumption.
  rewrite H5, H3, Nat.sub_0_r. reflexivity.
Qed.

Example greedy_body_replayed :
  RoundTripBody greedy (Some "m,t=v f=1 1")
  = mkBodyRun (Some (http.mkResponse 204 "204 No Content")) None 1
      [Sleep 1; LogPreviousFailed "503 Service Unavailable"; LogRetry 1]
      [Some "m,t=v f=1 1"; Some "m,t=v f=1 1"].
Proof. reflexivity. Qed.

(** ** Skipped buckets, composition and accounting of the tasks *)

Section MoreRendering.

Context `{Externals}.




Lemma renderEvents_app entry a b :
  renderEvents entry (a ++ b) = renderEvents entry a ++ renderEvents entry b.
Proof.
  induction a as [|event rest IH]; [reflexivity|].
  cbn [List.app renderEvents].
  destruct (renderEvent entry event); rewrite IH;
    [rewrite append_assoc|]; reflexivity.
Qed.

Lemma records_app entry a b :
  records entry (a ++ b) = (records entry a ++ records entry b)%list.
Proof.
  induction a as [|event rest IH]; [reflexivity|].
  cbn [List.app records].
  destruct (renderEvent entry event); rewrite IH; reflexivity.
Qed.

(** X11.  The text a task appends is the text of its events' records in
    the order of the events: the events of two lists one after the other
    give the two texts one after the other; an event that is skipped
    changes nothing for the events around it; and no event gives more
    than one record. *)
Theorem X11_events_render_independently (entry : Bucket) (a b : list Event) :
  renderEvents entry (a ++ b) = renderEvents entry a ++ renderEvents entry b
  /\ (forall event why,
        renderEvent entry event = Skip why ->
        renderEvents entry (a ++ event :: b) = renderEvents entry (a ++ b))
  /\ (List.length (records entry a) <= List.length a)%nat.
Proof.
  split; [apply renderEvents_app|]. split.
  - intros event why Hskip. rewrite !renderEvents_app.
    cbn [renderEvents]. rewrite Hskip. reflexivity.
  - induction a as [|event rest IH]; [cbn; lia|].
    cbn [records]. destruct (renderEvent entry event); cbn [List.length]; lia.
Qed.

Lemma harvestedRecords_flat_map sources :
  harvestedRecords sources = flat_map sourceRecords sources.
Proof.
  induction sources as [|[entry r] rest IH]; [reflexivity|].
  cbn [harvestedRecords flat_map]. unfold sourceRecords at 1. cbn [fst snd].
  destruct r as [err|err|code body [events|err]]; try exact IH.
  destruct (code =? http.StatusOK); rewrite IH; reflexivity.
Qed.

Lemma sourceRecords_failed source :
  sourceFails source = true -> sourceRecords source = [].
Proof.
  unfold sourceFails, sourceRecords.
  destruct (snd source) as [err|err|code body [events|err]];
    try reflexivity.
  destruct (code =? http.StatusOK); [discriminate|reflexivity].
Qed.

Lemma harvestedRecords_succeeded sources :
  harvestedRecords (filter (fun s => negb (sourceFails s)) sources)
  = harvestedRecords sources.
Proof.
  rewrite !harvestedRecords_flat_map.
  induction sources as [|s rest IH]; [reflexivity|].
  cbn [filter flat_map]. destruct (sourceFails s) eqn:Hs; cbn [negb].
  - rewrite sourceRecords_failed by exact Hs. exact IH.
  - cbn [flat_map]. rewrite IH. reflexivity.
Qed.

Lemma harvest_stderr_from sources st :
  List.length
    (stderr (fold_left (fun st source => bucketTask (fst source) (snd source) st)
                       sources st))
  = (List.length (stderr st)
     + List.length (filter sourceFails sources))%nat.
Proof.
  revert st. induction sources as [|[entry r] rest IH]; intros st.
  - cbn. lia.
  - cbn [fold_left fst snd]. rewrite IH. clear IH.
    unfold bucketTask, sourceFails. cbn [filter snd].
    destruct r as [err|err|code body [events|err]];
      cbn [handleApiError stderr negb orb List.length];
      try (rewrite length_app; cbn [List.length]; lia);
      destruct (code =? http.StatusOK);
      cbn [negb orb handleApiError stderr List.length];
      try rewrite length_app; cbn [List.length]; lia.
Qed.

(** X12.  Of [N] sources of which [M] fail to be fetched or decoded (with
    [N] below [2^63]): the counter ends at [M], [handleApiError] has logged [M]
    lines, and the payload is the one the other [N - M] sources give
    alone. *)
Theorem X12_harvest_accounting
    (sources : list (Bucket * EventsResponse)) :
  Z.of_nat (List.length sources) < 2 ^ 63 ->
  let failed := filter sourceFails sources in
  let succeeded := filter (fun s => negb (sourceFails s)) sources in
  apiErrors (harvest sources) = Z.of_nat (List.length failed)
  /\ List.length (stderr (harvest sources)) = List.length failed
  /\ payload (harvest sources) = payload (harvest succeeded)
  /\ (List.length failed + List.length succeeded = List.length sources)%nat.
Proof.
  intros Hrange. cbv zeta.
  assert (Hsplit : (List.length (filter sourceFails sources)
                    + List.length
                        (filter (fun s => negb (sourceFails s)) sources)
                    = List.length sources)%nat).
  { clear. induction sources as [|s rest IH]; [reflexivity|].
    cbn [filter]. destruct (sourceFails s); cbn [negb List.length]; lia. }
  split; [|split; [|split]].
  - rewrite harvest_apiErrors. apply int64_small. lia.
  - unfold harvest. rewrite harvest_stderr_from. reflexivity.
  - rewrite !harvest_payload, harvestedRecords_succeeded. reflexivity.
  - exact Hsplit.
Qed.

Lemma length_append (a b : string) :
  String.length (a ++ b) = (String.length a + String.length b)%nat.
Proof. induction a as [|c a IH]; cbn; [reflexivity|rewrite IH; reflexivity]. Qed.

Lemma filter_length_Permutation {A : Type} (f : A -> bool) (l l' : list A) :
  Permutation l l' ->
  List.length (filter f l) = List.length (filter f l').
Proof.
  induction 1 as [|x l l' _ IH|x y l|l l' l'' _ IH1 _ IH2].
  - reflexivity.
  - cbn [filter]. destruct (f x); cbn [List.length]; lia.
  - cbn [filter]. destruct (f x), (f y); reflexivity.
  - lia.
Qed.

(** X13.  When the tasks run one after another, their order changes
    neither the failure counter nor the records of the payload, which are
    the same up to their order. *)
Theorem X13_harvest_order (sources sources' : list (Bucket * EventsResponse)) :
  Permutation sources sources' ->
  apiErrors (harvest sources) = apiErrors (harvest sources')
  /\ Permutation (harvestedRecords sources) (harvestedRecords sources')
  /\ String.length (payload (harvest sources))
     = String.length (payload (harvest sources')).
Proof.
  intros Hperm.
  assert (Hrecords : Permutation (harvestedRecords sources)
                                 (harvestedRecords sources')).
  { rewrite !harvestedRecords_flat_map.
    apply Permutation_flat_map. exact Hperm. }
  split; [|split; [exact Hrecords|]].
  - rewrite !harvest_apiErrors.
    rewrite (filter_length_Permutation sourceFails _ _ Hperm). reflexivity.
  - rewrite !harvest_payload.
    clear Hperm.
    induction Hrecords as [|x l l' _ IH|x y l|l l' l'' _ IH1 _ IH2].
    + reflexivity.
    + change (x :: l) with ([x] ++ l)%list.
      change (x :: l') with ([x] ++ l')%list.
      rewrite !concat_app, !length_append, IH. reflexivity.
    + change (y :: x :: l) with ([y] ++ [x] ++ l)%list.
      change (x :: y :: l) with ([x] ++ [y] ++ l)%list.
      rewrite !concat_app, !length_append. lia.
    + lia.
Qed.

End MoreRendering.

(** ** The shape of a record *)

Section RecordShape.

Context `{Externals}.

Lemma renderEvent_stopwatch entry event :
  Bucket_Type entry = stopwatchType ->
  renderEvent entry event = renderStopWatch entry event.
Proof. intros Htype. unfold renderEvent. rewrite Htype. reflexivity. Qed.

(** X14.  For an event of a [general.stopwatch] bucket whose payload
    decodes, the record carries the fields [duration] and [running],
    preceded by a tag [label] exactly when the label is not empty; the tag
    holds the label as [escapeTagValue] returns it. *)
Theorem X14_stopwatch_label_tag (entry : Bucket) (event : Event)
    (data : StopWatch) :
  Bucket_Type entry = stopwatchType ->
  Unmarshal_StopWatch (Event_Data event) = Some data ->
  (StopWatch_Label data = EmptyString ->
   renderEvent entry event
   = Line (Bucket_Type entry
           ++ ",client=" ++ Bucket_Client entry
           ++ ",hostname=" ++ escapeTagValue (Bucket_Hostname entry)
           ++ " duration=" ++ Sprintf_3f (Event_Duration event)
           ++ ",running=" ++ fmt.t (StopWatch_Running data)
           ++ " " ++ fmt.d (Event_Timestamp_Unix event)
           ++ fmt.nl))
  /\ (StopWatch_Label data <> EmptyString ->
      renderEvent entry event
      = Line (Bucket_Type entry
              ++ ",client=" ++ Bucket_Client entry
              ++ ",hostname=" ++ escapeTagValue (Bucket_Hostname entry)
              ++ ",label=" ++ escapeTagValue (StopWatch_Label data)
              ++ " duration=" ++ Sprintf_3f (Event_Duration event)
              ++ ",running=" ++ fmt.t (StopWatch_Running data)
              ++ " " ++ fmt.d (Event_Timestamp_Unix event)
              ++ fmt.nl)).
Proof.
  intros Htype Hdata.
  rewrite (renderEvent_stopwatch _ _ Htype).
  unfold renderStopWatch. rewrite Hdata.
  split; intros Hlabel.
  - rewrite Hlabel. reflexivity.
  - destruct (String.eqb (StopWatch_Label data) EmptyString) eqn:Heq.
    + apply String.eqb_eq in Heq. contradiction.
    + reflexivity.
Qed.

Lemma framed_intro entry event middle :
  framed entry event
    (Bucket_Type entry
     ++ ",client=" ++ Bucket_Client entry
     ++ ",hostname=" ++ escapeTagValue (Bucket_Hostname entry)
     ++ middle
     ++ " " ++ fmt.d (Event_Timestamp_Unix event)
     ++ fmt.nl).
Proof. exists middle. reflexivity. Qed.

Lemma renderWebTabCurrent_framed entry event l :
  renderWebTabCurrent entry event = Line l -> framed entry event l.
Proof.
  unfold renderWebTabCurrent.
  destruct (Unmarshal_WebTabCurrent (Event_Data event)) as [data|];
    [|discriminate].
  destruct (url_Parse (WebTabCurrent_URL data)) as [u|]; [|discriminate].
  cbv zeta. intros Hl. injection Hl as <-.
  set (cleanUrl := if String.eqb (url.Host u) EmptyString then EmptyString
                   else ",url=" ++ url.Host u).
  pose proof (framed_intro entry event
                (cleanUrl
                 ++ " duration=" ++ Sprintf_3f (Event_Duration event)
                 ++ ",audible=" ++ fmt.t (WebTabCurrent_Audible data)
                 ++ ",incognito=" ++ fmt.t (WebTabCurrent_Incognito data)))
    as Hframed.
  rewrite !append_assoc in Hframed. exact Hframed.
Qed.

Lemma renderAppEditor_framed entry event l :
  renderAppEditor entry event = Line l -> framed entry event l.
Proof.
  unfold renderAppEditor.
  destruct (Unmarshal_AppEditorActivity (Event_Data event)) as [data|];
    [|discriminate].
  intros Hl. injection Hl as <-.
  pose proof (framed_intro entry event
                (",project=" ++ escapeTagValue (AppEditorActivity_Project data)
                 ++ ",language="
                 ++ escapeTagValue (AppEditorActivity_Language data)
                 ++ ",file=" ++ escapeTagValue (AppEditorActivity_File data)
                 ++ " duration=" ++ Sprintf_3f (Event_Duration event)))
    as Hframed.
  rewrite !append_assoc in Hframed. exact Hframed.
Qed.

Lemma renderCurrentWindow_framed entry event l :
  renderCurrentWindow entry event = Line l -> framed entry event l.
Proof.
  unfold renderCurrentWindow.
  destruct (Unmarshal_CurrentWindow (Event_Data event)) as [data|];
    [|discriminate].
  intros Hl. injection Hl as <-.
  pose proof (framed_intro entry event
                (",app=" ++ escapeTagValue (CurrentWindow_App data)
                 ++ " duration=" ++ Sprintf_3f (Event_Duration event)))
    as Hframed.
  rewrite !append_assoc in Hframed. exact Hframed.
Qed.

Lemma renderStopWatch_framed entry event l :
  renderStopWatch entry event = Line l -> framed entry event l.
Proof.
  unfold renderStopWatch.
  destruct (Unmarshal_StopWatch (Event_Data event)) as [data|];
    [|discriminate].
  cbv zeta. intros Hl. injection Hl as <-.
  set (label := if String.eqb (StopWatch_Label data) EmptyString
                then EmptyString
                else ",label=" ++ escapeTagValue (StopWatch_Label data)).
  pose proof (framed_intro entry event
                (label
                 ++ " duration=" ++ Sprintf_3f (Event_Duration event)
                 ++ ",running=" ++ fmt.t (StopWatch_Running data)))
    as Hframed.
  rewrite !append_assoc in Hframed. exact Hframed.
Qed.

Lemma renderAfkStatus_framed entry event l :
  renderAfkStatus entry event = Line l -> framed entry event l.
Proof.
  unfold renderAfkStatus.
  destruct (Unmarshal_AfkStatus (Event_Data event)) as [data|];
    [|discriminate].
  intros Hl. injection Hl as <-.
  pose proof (framed_intro entry event
                (" duration=" ++ Sprintf_3f (Event_Duration event)
                 ++ ",status=" ++ fmt.quote ++ AfkStatus_Status data
                 ++ fmt.quote))
    as Hframed.
  rewrite !append_assoc in Hframed. exact Hframed.
Qed.

(** X15.  Every record is rendered for a bucket of one of the five known
    types, opens with the bucket type as measurement name followed by the
    tags [client] (the client name as it is) and [hostname] (escaped), and
    closes with a space, the timestamp in seconds and a line feed. *)
Theorem X15_record_shape (entry : Bucket) (event : Event) (l : string) :
  renderEvent entry event = Line l ->
  knownType (Bucket_Type entry) = true
  /\ exists middle,
       l = Bucket_Type entry
           ++ ",client=" ++ Bucket_Client entry
           ++ ",hostname=" ++ escapeTagValue (Bucket_Hostname entry)
           ++ middle
           ++ " " ++ fmt.d (Event_Timestamp_Unix event)
           ++ fmt.nl.
Proof.
  unfold renderEvent, knownType.
  destruct (String.eqb (Bucket_Type entry) webTabCurrentType);
    [|destruct (String.eqb (Bucket_Type entry) appEditorType);
      [|destruct (String.eqb (Bucket_Type entry) currentWindowType);
        [|destruct (String.eqb (Bucket_Type entry) stopwatchType);
          [|destruct (String.eqb (Bucket_Type entry) afkType);
            [|discriminate]]]]];
    intros Hl; (split; [reflexivity|]).
  - exact (renderWebTabCurrent_framed _ _ _ Hl).
  - exact (renderAppEditor_framed _ _ _ Hl).
  - exact (renderCurrentWindow_framed _ _ _ Hl).
  - exact (renderStopWatch_framed _ _ _ Hl).
  - exact (renderAfkStatus_framed _ _ _ Hl).
Qed.

End RecordShape.

(** ** The delivery and the start of [main] *)

(** X16.  The delivery returns normally in one case only: the payload is
    not empty, the write was answered with status 204 and its body read,
    and the counter holds no failure. *)
Theorem X16_deliver_returns_iff (payload : string) (apiErrors : Z)
    (upload : string -> Delivery) :
  deliver payload apiErrors upload = Returned
  <-> payload <> EmptyString
      /\ (exists body, upload payload = Responded 204 body)
      /\ apiErrors <= 0.
Proof.
  unfold deliver. split.
  - destruct (String.length payload =? 0)%nat eqn:Hlen; [discriminate|].
    assert (Hpayload : payload <> EmptyString).
    { intros ->. discriminate. }
    destruct (upload payload) as [err|err|err|code body]; try discriminate.
    destruct (Z.eqb_spec code 204) as [->|Hcode]; cbn [negb];
      [|discriminate].
    destruct (Z.ltb_spec 0 apiErrors); [discriminate|].
    intros _. split; [exact Hpayload|]. split; [exists body; reflexivity|lia].
  - intros (Hpayload & (body & Hupload) & Hzero).
    destruct (String.length payload =? 0)%nat eqn:Hlen.
    { apply length_zero_empty in Hlen. contradiction. }
    rewrite Hupload. cbn [Z.eqb Pos.eqb negb].
    destruct (Z.ltb_spec 0 apiErrors); [lia|reflexivity].
Qed.

(** X17.  Unless the write was answered with status 204, the end of the
    run does not depend on the failure counter: an empty payload or a
    failed shipment is reported, the failures of the sources are not. *)
Theorem X17_shipment_failure_first (payload : string)
    (upload : string -> Delivery) :
  (forall body, upload payload <> Responded 204 body) ->
  forall apiErrors apiErrors' : Z,
  deliver payload apiErrors upload = deliver payload apiErrors' upload.
Proof.
  intros Hnot apiErrors apiErrors'. unfold deliver.
  destruct (String.length payload =? 0)%nat; [reflexivity|].
  destruct (upload payload) as [err|err|err|code body] eqn:Hupload;
    try reflexivity.
  destruct (Z.eqb_spec code 204) as [->|Hcode]; cbn [negb]; [|reflexivity].
  exfalso. exact (Hnot body eq_refl).
Qed.

Lemma X17_shipment_failure_first_witness :
  (forall body, Responded 500 "unavailable" <> Responded 204 body)
  /\ deliver "m,t=v f=1 1" 3 (fun _ => Responded 500 "unavailable")
     = Fatal "Error sending data: unavailable".
Proof.
  assert (Hnot : forall body,
            (fun _ : string => Responded 500 "unavailable") "m,t=v f=1 1"
            <> Responded 204 body) by (intros body; discriminate).
  split; [exact Hnot|].
  rewrite (X17_shipment_failure_first "m,t=v f=1 1" _ Hnot 3 0).
  reflexivity.
Defined.

(** X18.  The configuration passes the tests of lines 163-177 exactly when
    its five fields are all non-empty; when it does not, [main] ends in
    the fatal message of the test that failed, whatever the servers would
    answer. *)
Theorem X18_config_required_fields `{Externals} (config : Config) :
  (checkConfig config = None
   <-> Config_ActivityWatchUrl config <> EmptyString
       /\ Config_Bucket config <> EmptyString
       /\ Config_InfluxDBHost config <> EmptyString
       /\ Config_InfluxDBApiToken config <> EmptyString
       /\ Config_Org config <> EmptyString)
  /\ (forall message, checkConfig config = Some message ->
      forall bucketsResp getEvents upload,
        main (Decoded config) bucketsResp getEvents upload = Fatal message).
Proof.
  split.
  - unfold checkConfig.
    destruct (String.eqb (Config_ActivityWatchUrl config) EmptyString) eqn:H1;
    [|destruct (String.eqb (Config_Bucket config) EmptyString) eqn:H2;
      [|destruct (String.eqb (Config_InfluxDBHost config) EmptyString) eqn:H3;
        [|destruct (String.eqb (Config_InfluxDBApiToken config) EmptyString)
            eqn:H4;
          [|destruct (String.eqb (Config_Org config) EmptyString) eqn:H5]]]];
    repeat match goal with
           | Heq : String.eqb _ _ = true |- _ => apply String.eqb_eq in Heq
           | Heq : String.eqb _ _ = false |- _ => apply String.eqb_neq in Heq
           end;
    split; try discriminate; try tauto; intros; repeat split; assumption.
  - intros message Hcheck bucketsResp getEvents upload.
    unfold main. rewrite Hcheck. reflexivity.
Qed.

(** ** The log streams, and when [main] returns *)

Section MoreHarvesting.

Context `{Externals}.

Lemma sourceFails_handleApiError entry r st :
  sourceFails (entry, r) = true ->
  exists message err, bucketTask entry r st = handleApiError message err st.
Proof.
  unfold sourceFails, bucketTask. cbn [snd].
  destruct r as [err|err|code body [events|err]]; intros Hfails;
    try (eexists; eexists; reflexivity);
    destruct (negb (code =? http.StatusOK));
    try discriminate; eexists; eexists; reflexivity.
Qed.

Lemma harvest_output_from sources :
  forall output,
  fold_left (fun output source =>
               bucketTask_output (fst source) (snd source) output)
            sources output
  = if existsb sourceFails sources then log.Stdout else output.
Proof.
  induction sources as [|[entry r] rest IH]; intros output; [reflexivity|].
  cbn [fold_left existsb fst snd]. rewrite IH.
  unfold bucketTask_output.
  destruct (sourceFails (entry, r)); cbn [orb]; [|reflexivity].
  destruct (existsb sourceFails rest); reflexivity.
Qed.

Lemma existsb_filter {A : Type} (f : A -> bool) (l : list A) :
  existsb f l = negb (Nat.eqb (List.length (filter f l)) 0).
Proof.
  induction l as [|x l IH]; [reflexivity|].
  cbn [existsb filter]. destruct (f x); [reflexivity|exact IH].
Qed.

(** X19.  [handleApiError] writes its line to the error stream whatever
    the output of the logger was, and leaves the logger on the standard
    output.  So, with the tasks run one after another, the logger is on
    the standard output once a source has failed and on the error stream
    otherwise, and the closing message [Errors: n], logged when the
    counter is above zero, goes to the standard output. *)
Theorem X19_log_streams (sources : list (Bucket * EventsResponse)) :
  (forall output,
     handleApiError_output output = (log.Stderr, log.Stdout))
  /\ harvest_output sources
     = (if existsb sourceFails sources then log.Stdout else log.Stderr)
  /\ (0 < apiErrors (harvest sources) ->
      harvest_output sources = log.Stdout).
Proof.
  split; [reflexivity|].
  assert (Ho : harvest_output sources
               = if existsb sourceFails sources then log.Stdout
                 else log.Stderr)
    by apply harvest_output_from.
  split; [exact Ho|].
  intros Hpos. rewrite Ho, existsb_filter.
  rewrite harvest_apiErrors in Hpos.
  destruct (List.length (filter sourceFails sources)); [|reflexivity].
  vm_compute in Hpos. discriminate.
Qed.

(** X20.  An answer to the events request whose status is not 200 is
    handled the same way whatever the status, the body and what the body
    would decode to: the payload is left as it is, the counter goes up by
    one failure (as an [int64]), and [handleApiError] logs one line, which
    names the bucket and ends in [<nil>], the error variable being [nil]
    at line 237. *)
Theorem X20_status_not_reported (entry : Bucket) (code code' : Z)
    (body body' : string) (events events' : list Event + error)
    (st : Harvest) :
  code <> http.StatusOK -> code' <> http.StatusOK ->
  bucketTask entry (Answered code body events) st
  = bucketTask entry (Answered code' body' events') st
  /\ payload (bucketTask entry (Answered code body events) st) = payload st
  /\ apiErrors (bucketTask entry (Answered code body events) st)
     = int64 (apiErrors st + 1)
  /\ stderr (bucketTask entry (Answered code body events) st)
     = List.app (stderr st)
         [fmt.Sprintln ["Error trying to get events data for bucket="
                        ++ Bucket_ID entry ++ ":" ++ fmt.nl; "<nil>"]].
Proof.
  intros Hcode Hcode'. unfold bucketTask.
  apply Z.eqb_neq in Hcode, Hcode'. rewrite Hcode, Hcode'.
  repeat split; reflexivity.
Qed.

Lemma filter_nil_iff {A : Type} (f : A -> bool) (l : list A) :
  filter f l = [] <-> (forall x, In x l -> f x = false).
Proof.
  induction l as [|x l IH]; cbn [filter In].
  - split; [intros _ y []|reflexivity].
  - destruct (f x) eqn:Hx.
    + split; [discriminate|]. intros Hall.
      rewrite (Hall x (or_introl eq_refl)) in Hx. discriminate.
    + rewrite IH. split.
      * intros Hall y [<-|Hy]; [exact Hx|exact (Hall y Hy)].
      * intros Hall y Hy. exact (Hall y (or_intror Hy)).
Qed.

(** X21.  [main] returns normally in one case only (fewer than [2^63]
    buckets): the configuration decodes with its five fields set, the
    bucket list is answered with status 200 and decodes, no source fails,
    at least one record is rendered, and the write is answered with
    status 204. *)
Theorem X21_main_returns_iff (conf : ConfigFile) (bucketsResp : BucketsResponse)
    (getEvents : Bucket -> EventsResponse) (upload : string -> Delivery) :
  (forall buckets, discover bucketsResp = inl buckets ->
     Z.of_nat (List.length buckets) < 2 ^ 63) ->
  main conf bucketsResp getEvents upload = Returned
  <-> exists config buckets raw body,
        conf = Decoded config
        /\ checkConfig config = None
        /\ bucketsResp = BucketsAnswered http.StatusOK raw (inl buckets)
        /\ let sources := map (fun entry => (entry, getEvents entry)) buckets in
           (forall source, In source sources -> sourceFails source = false)
           /\ harvestedRecords sources <> []
           /\ upload (payload (harvest sources)) = Responded 204 body.
Proof.
  intros Hrange. unfold main. split.
  - destruct conf as [err|err|config]; try discriminate.
    destruct (checkConfig config) as [message|] eqn:Hcheck; [discriminate|].
    destruct (discover bucketsResp) as [buckets|message] eqn:Hdisc;
      [|discriminate].
    specialize (Hrange buckets eq_refl).
    assert (Hresp : exists raw,
               bucketsResp = BucketsAnswered http.StatusOK raw (inl buckets)).
    { unfold discover in Hdisc.
      destruct bucketsResp as [err|err|code raw [bs|err]]; try discriminate;
        destruct (Z.eqb_spec code http.StatusOK) as [->|Hne];
        cbn [negb] in Hdisc; try discriminate.
      injection Hdisc as ->. exists raw. reflexivity. }
    destruct Hresp as [raw ->].
    unfold run.
    set (sources := map (fun entry => (entry, getEvents entry)) buckets).
    intros Hrun.
    assert (Hlen : (List.length (filter sourceFails sources)
                    <= List.length buckets)%nat).
    { etransitivity; [apply filter_length_le|].
      subst sources. rewrite length_map. lia. }
    unfold deliver in Hrun.
    destruct (String.length (payload (harvest sources)) =? 0)%nat eqn:Hempty;
      [discriminate|].
    destruct (upload (payload (harvest sources))) as [e|e|e|code body]
      eqn:Hupload; try discriminate.
    destruct (Z.eqb_spec code 204) as [->|Hne]; cbn [negb] in Hrun;
      [|discriminate].
    destruct (Z.ltb_spec 0 (apiErrors (harvest sources))) as [|Hzero];
      [discriminate|].
    exists config, buckets, raw, body.
    split; [reflexivity|]. split; [exact Hcheck|]. split; [reflexivity|].
    cbv zeta. fold sources. split; [|split].
    + apply filter_nil_iff.
      rewrite harvest_apiErrors, int64_small in Hzero by lia.
      destruct (filter sourceFails sources); [reflexivity|].
      cbn [List.length] in Hzero. lia.
    + intros Hnone. apply payload_empty_iff in Hnone.
      rewrite Hnone in Hempty. discriminate.
    + exact Hupload.
  - intros (config & buckets & raw & body & -> & Hcheck & -> & Hsources).
    cbv zeta in Hsources. destruct Hsources as (Hok & Hrecords & Hupload).
    rewrite Hcheck. cbn [discover Z.eqb http.StatusOK Pos.eqb negb].
    unfold run.
    set (sources := map (fun entry => (entry, getEvents entry)) buckets) in *.
    unfold deliver.
    destruct (String.length (payload (harvest sources)) =? 0)%nat eqn:Hempty.
    { apply length_zero_empty, payload_empty_iff in Hempty. contradiction. }
    rewrite Hupload. cbn [Z.eqb Pos.eqb negb].
    rewrite harvest_apiErrors.
    apply filter_nil_iff in Hok. rewrite Hok. reflexivity.
Qed.

End MoreHarvesting.

(** ** More examples *)


Lemma X12_harvest_accounting_witness :
  Z.of_nat (List.length [Sample.window; Sample.failed; Sample.unknown])
  < 2 ^ 63
  /\ apiErrors (harvest [Sample.window; Sample.failed; Sample.unknown]) = 1
  /\ List.length
       (stderr (harvest [Sample.window; Sample.failed; Sample.unknown]))
     = 1%nat
  /\ payload (harvest [Sample.window; Sample.failed; Sample.unknown])
     = payload (harvest [Sample.window; Sample.unknown]).
Proof.
  assert (Hrange :
    Z.of_nat (List.length [Sample.window; Sample.failed; Sample.unknown])
    < 2 ^ 63) by (vm_compute; reflexivity).
  split; [exact Hrange|].
  destruct (X12_harvest_accounting
              [Sample.window; Sample.failed; Sample.unknown] Hrange)
    as (Hcount & Hlog & Hpayload & _).
  split; [exact Hcount|]. split; [exact Hlog|]. exact Hpayload.
Defined.

Lemma X13_harvest_order_witness :
  Permutation [Sample.window; Sample.failed] [Sample.failed; Sample.window]
  /\ apiErrors (harvest [Sample.window; Sample.failed])
     = apiErrors (harvest [Sample.failed; Sample.window])
  /\ Permutation (harvestedRecords [Sample.window; Sample.failed])
                 (harvestedRecords [Sample.failed; Sample.window]).
Proof.
  assert (Hperm : Permutation [Sample.window; Sample.failed]
                              [Sample.failed; Sample.window])
    by apply perm_swap.
  split; [exact Hperm|].
  destruct (X13_harvest_order _ _ Hperm) as (Hcount & Hrecords & _).
  split; [exact Hcount|exact Hrecords].
Defined.

(** A stopwatch with a label holding a space, and one with no label. *)
Lemma X14_stopwatch_label_tag_witness :
  renderEvent Cases.stopwatch (Cases.timer "deep work")
  = Line ("general.stopwatch,client=aw-webui,hostname=desktop,label=deep\ work duration=90.000,running=true 1741974028"
          ++ fmt.nl)
  /\ renderEvent Cases.stopwatch (Cases.timer EmptyString)
     = Line ("general.stopwatch,client=aw-webui,hostname=desktop duration=90.000,running=true 1741974028"
             ++ fmt.nl).
Proof.
  split.
  - refine (proj2 (X14_stopwatch_label_tag Cases.stopwatch
                     (Cases.timer "deep work") _ eq_refl eq_refl) _).
    discriminate.
  - exact (proj1 (X14_stopwatch_label_tag Cases.stopwatch
                    (Cases.timer EmptyString) _ eq_refl eq_refl) eq_refl).
Defined.

Lemma X15_record_shape_witness :
  renderEvent Sample.spaced Sample.spacedEvent
  = Line ("currentwindow,client=my client,hostname=desk\ top,app=fire\ fox duration=25.523 1741974028"
          ++ fmt.nl)
  /\ exists middle,
       "currentwindow,client=my client,hostname=desk\ top,app=fire\ fox duration=25.523 1741974028"
       ++ fmt.nl
       = "currentwindow" ++ ",client=" ++ "my client"
         ++ ",hostname=" ++ escapeTagValue "desk top"
         ++ middle ++ " " ++ fmt.d 1741974028 ++ fmt.nl.
Proof.
  assert (Hline : renderEvent Sample.spaced Sample.spacedEvent
                  = Line ("currentwindow,client=my client,hostname=desk\ top,app=fire\ fox duration=25.523 1741974028"
                          ++ fmt.nl)) by (vm_compute; reflexivity).
  split; [exact Hline|].
  exact (proj2 (X15_record_shape Sample.spaced Sample.spacedEvent _ Hline)).
Defined.

Lemma X21_main_returns_iff_witness :
  (forall buckets, discover Cases.bucketList = inl buckets ->
     Z.of_nat (List.length buckets) < 2 ^ 63)
  /\ main (Decoded Cases.config) Cases.bucketList Cases.events
          (fun _ => Responded 204 EmptyString)
     = Returned.
Proof.
  assert (Hrange : forall buckets, discover Cases.bucketList = inl buckets ->
                     Z.of_nat (List.length buckets) < 2 ^ 63).
  { intros buckets Hdisc. injection Hdisc as <-. vm_compute. reflexivity. }
  split; [exact Hrange|].
  apply (proj2 (X21_main_returns_iff (Decoded Cases.config) Cases.bucketList
                  Cases.events (fun _ => Responded 204 EmptyString) Hrange)).
  exists Cases.config, [fst Sample.window], "{...}", EmptyString.
  split; [reflexivity|]. split; [reflexivity|]. split; [reflexivity|].
  cbv zeta. split; [|split].
  - intros source [<-|[]]. reflexivity.
  - vm_compute. discriminate.
  - reflexivity.
Defined.

(** A 404 whose body would decode and a 503 whose body would not: the
    same state, with one failure counted on top of the two before. *)
Lemma X20_status_not_reported_witness :
  404 <> http.StatusOK /\ 503 <> http.StatusOK
  /\ bucketTask (fst Sample.failed)
       (Answered 404 "no such bucket" (inl [Sample.afkEvent]))
       (mkHarvest "m,t=v f=1 1" 2 [])
     = @bucketTask Sample.externals (fst Sample.failed)
         (Answered 503 "unavailable" (inr "unexpected end of JSON input"))
         (mkHarvest "m,t=v f=1 1" 2 [])
  /\ apiErrors (bucketTask (fst Sample.failed)
                  (Answered 404 "no such bucket" (inl [Sample.afkEvent]))
                  (mkHarvest "m,t=v f=1 1" 2 []))
     = 3.
Proof.
  assert (H404 : 404 <> http.StatusOK) by discriminate.
  assert (H503 : 503 <> http.StatusOK) by discriminate.
  split; [exact H404|]. split; [exact H503|].
  destruct (X20_status_not_reported (fst Sample.failed) 404 503
              "no such bucket" "unavailable" (inl [Sample.afkEvent])
              (inr "unexpected end of JSON input")
              (mkHarvest "m,t=v f=1 1" 2 []) H404 H503)
    as (Hsame & _ & Hcount & _).
  split; [exact Hsame|]. rewrite Hcount. reflexivity.
Defined.
